(** * avatar-gemini-core: the /chat turn of src/index.js

    A shallow embedding of the chat endpoint of the avatar backend
    (src/index.js): the external-tool invoker [execCommand], the
    lip-sync stage [lipSyncMessage], the asset readers
    [readJsonTranscript] and [audioFileToBase64], and the handler of
    POST /chat, together with the parts of the JavaScript runtime the
    handler leans on (String.prototype.replace with a literal pattern,
    JSON.parse, ToBoolean, Buffer base64 encoding, promise settlement).

    JavaScript strings are sequences of UTF-16 code units; they are
    modelled as lists of [N].  The collaborators (language model,
    speech synthesis, child processes, file system) are an abstract
    world threaded through a small state-and-exception monad that also
    records the calls that were made.

    Left out: console output and the timings it prints, and the
    constant system instruction and generation settings sent with
    every model call.  Numbers are kept as decimal literals, so two
    spellings of one double are two values here, and the members of an
    object stay in the order of the text. *)

From Stdlib Require Import List String Ascii NArith ZArith Bool Lia.
From Stdlib Require Import DecimalString DecimalNat.
Import ListNotations.

#[local] Set Warnings "-register-all".
Local Open Scope N_scope.

(** ** JavaScript strings *)

Definition jsstr := list N.

(** The code units of an ASCII literal of this development. *)
Definition u16 (s : string) : jsstr :=
  map N_of_ascii (list_ascii_of_string s).

Fixpoint jsstr_eqb (a b : jsstr) : bool :=
  match a, b with
  | [], [] => true
  | x :: a', y :: b' => (x =? y) && jsstr_eqb a' b'
  | _, _ => false
  end.

(** Template literals print the loop index in decimal. *)
Definition dec_of_nat (n : nat) : jsstr :=
  u16 (NilEmpty.string_of_uint (Nat.to_uint n)).

(** ** String.prototype.replace with a non-global pattern

    Both patterns of the handler, [/```json\n?/] and [/```\n?/], are a
    literal followed by an optional line feed.  Without the [g] flag,
    [replace] rewrites the leftmost match only. *)

Module Replace.

Definition LF : N := 10.

(** [after p s] is what follows [p] when [s] starts with [p]. *)
Fixpoint after (p s : jsstr) : option jsstr :=
  match p, s with
  | [], _ => Some s
  | _ :: _, [] => None
  | x :: p', y :: s' => if x =? y then after p' s' else None
  end.

(** The greedy [\n?] at the end of the pattern. *)
Definition optional_lf (s : jsstr) : jsstr :=
  match s with
  | c :: r => if c =? LF then r else s
  | [] => s
  end.

(** [s.replace(/p\n?/, '')] for a literal [p]. *)
Fixpoint remove_first (p s : jsstr) : jsstr :=
  match after p s with
  | Some r => optional_lf r
  | None =>
      match s with
      | [] => []
      | c :: s' => c :: remove_first p s'
      end
  end.

(** [p] occurs somewhere in [s]. *)
Fixpoint occurs (p s : jsstr) : bool :=
  match after p s with
  | Some _ => true
  | None =>
      match s with
      | [] => false
      | _ :: s' => occurs p s'
      end
  end.

End Replace.

Definition fence_json : jsstr := u16 "```json".
Definition fence : jsstr := u16 "```".

(** index.js line 175:
    [responseText.replace(/```json\n?/, '').replace(/```\n?/, '')]. *)
Definition strip_fences (responseText : jsstr) : jsstr :=
  Replace.remove_first fence (Replace.remove_first fence_json responseText).

(** ** JSON values and JSON.parse *)

Module Json.

(** A number literal, kept exactly: [(-1)^neg * mant * 10^exp10].
    The double it denotes is never computed. *)
Record number := Num { neg : bool; mant : N; exp10 : Z }.

(** Objects keep their members in insertion order, one per key. *)
Inductive json :=
| JNull
| JBool (b : bool)
| JNum (n : number)
| JStr (s : jsstr)
| JArr (items : list json)
| JObj (members : list (jsstr * json)).

(** Own-property lookup. *)
Fixpoint lookup (k : jsstr) (ms : list (jsstr * json)) : option json :=
  match ms with
  | [] => None
  | (k', v) :: r => if jsstr_eqb k k' then Some v else lookup k r
  end.

(** Property definition: an existing key keeps its place and takes
    the new value, a new key goes last. *)
Fixpoint obj_set (k : jsstr) (v : json) (ms : list (jsstr * json))
  : list (jsstr * json) :=
  match ms with
  | [] => [(k, v)]
  | (k', v') :: r =>
      if jsstr_eqb k k' then (k', v) :: r else (k', v') :: obj_set k v r
  end.

(** *** Tokens *)

Inductive token :=
| TLBrace | TRBrace | TLBrack | TRBrack | TColon | TComma
| TTrue | TFalse | TNull
| TNum (n : number)
| TStr (s : jsstr).

Definition is_ws (c : N) : bool :=
  (c =? 32) || (c =? 9) || (c =? 10) || (c =? 13).

Definition digit (c : N) : option N :=
  if (48 <=? c) && (c <=? 57) then Some (c - 48) else None.

Definition hex (c : N) : option N :=
  if (48 <=? c) && (c <=? 57) then Some (c - 48)
  else if (97 <=? c) && (c <=? 102) then Some (c - 87)
  else if (65 <=? c) && (c <=? 70) then Some (c - 55)
  else None.

Definition is_e (c : N) : bool := (c =? 101) || (c =? 69).

(** *** The lexer, one code unit at a time *)

Inductive lstate :=
| LIdle
| LWord (rest : jsstr) (t : token)
| LMinus
| LZero (sg : bool)
| LInt (sg : bool) (m : N)
| LDot (sg : bool) (m : N)
| LFrac (sg : bool) (m : N) (scale : Z)
| LExp (sg : bool) (m : N) (scale : Z)
| LExpSign (sg : bool) (m : N) (scale : Z) (esg : bool)
| LExpDigits (sg : bool) (m : N) (scale : Z) (esg : bool) (e : N)
| LString (acc : jsstr)
| LEscape (acc : jsstr)
| LUnicode (acc : jsstr) (ds : list N).

Definition exponent (esg : bool) (e : N) (scale : Z) : Z :=
  ((if esg then - Z.of_N e else Z.of_N e) - scale)%Z.

(** The tokens owed when the current lexeme stops here; [None] when
    it cannot stop here. *)
Definition close (st : lstate) : option (list token) :=
  match st with
  | LIdle => Some []
  | LZero sg => Some [TNum (Num sg 0 0)]
  | LInt sg m => Some [TNum (Num sg m 0)]
  | LFrac sg m k => Some [TNum (Num sg m (- k))]
  | LExpDigits sg m k esg e => Some [TNum (Num sg m (exponent esg e k))]
  | _ => None
  end.

Definition idle (c : N) : option (lstate * list token) :=
  if is_ws c then Some (LIdle, [])
  else if c =? 123 then Some (LIdle, [TLBrace])
  else if c =? 125 then Some (LIdle, [TRBrace])
  else if c =? 91 then Some (LIdle, [TLBrack])
  else if c =? 93 then Some (LIdle, [TRBrack])
  else if c =? 58 then Some (LIdle, [TColon])
  else if c =? 44 then Some (LIdle, [TComma])
  else if c =? 34 then Some (LString [], [])
  else if c =? 45 then Some (LMinus, [])
  else if c =? 116 then Some (LWord (u16 "rue") TTrue, [])
  else if c =? 102 then Some (LWord (u16 "alse") TFalse, [])
  else if c =? 110 then Some (LWord (u16 "ull") TNull, [])
  else match digit c with
       | Some 0 => Some (LZero false, [])
       | Some d => Some (LInt false d, [])
       | None => None
       end.

(** A lexeme that ends before [c]: emit it, then read [c] afresh. *)
Definition close_then (st : lstate) (c : N) : option (lstate * list token) :=
  match close st, idle c with
  | Some ts, Some (st', ts') => Some (st', ts ++ ts')
  | _, _ => None
  end.

Definition code_of_hex (ds : list N) : N :=
  fold_left (fun a d => 16 * a + d) ds 0.

Definition lstep (st : lstate) (c : N) : option (lstate * list token) :=
  match st with
  | LIdle => idle c
  | LWord [] _ => None
  | LWord (x :: rest) t =>
      if c =? x
      then match rest with
           | [] => Some (LIdle, [t])
           | _ => Some (LWord rest t, [])
           end
      else None
  | LMinus =>
      match digit c with
      | Some 0 => Some (LZero true, [])
      | Some d => Some (LInt true d, [])
      | None => None
      end
  | LZero sg =>
      if c =? 46 then Some (LDot sg 0, [])
      else if is_e c then Some (LExp sg 0 0, [])
      else close_then st c
  | LInt sg m =>
      match digit c with
      | Some d => Some (LInt sg (10 * m + d), [])
      | None =>
          if c =? 46 then Some (LDot sg m, [])
          else if is_e c then Some (LExp sg m 0, [])
          else close_then st c
      end
  | LDot sg m =>
      match digit c with
      | Some d => Some (LFrac sg (10 * m + d) 1, [])
      | None => None
      end
  | LFrac sg m k =>
      match digit c with
      | Some d => Some (LFrac sg (10 * m + d) (k + 1), [])
      | None =>
          if is_e c then Some (LExp sg m k, [])
          else close_then st c
      end
  | LExp sg m k =>
      if c =? 43 then Some (LExpSign sg m k false, [])
      else if c =? 45 then Some (LExpSign sg m k true, [])
      else match digit c with
           | Some d => Some (LExpDigits sg m k false d, [])
           | None => None
           end
  | LExpSign sg m k esg =>
      match digit c with
      | Some d => Some (LExpDigits sg m k esg d, [])
      | None => None
      end
  | LExpDigits sg m k esg e =>
      match digit c with
      | Some d => Some (LExpDigits sg m k esg (10 * e + d), [])
      | None => close_then st c
      end
  | LString acc =>
      if c =? 34 then Some (LIdle, [TStr (rev acc)])
      else if c =? 92 then Some (LEscape acc, [])
      else if c <? 32 then None
      else Some (LString (c :: acc), [])
  | LEscape acc =>
      if (c =? 34) || (c =? 92) || (c =? 47) then Some (LString (c :: acc), [])
      else if c =? 98 then Some (LString (8 :: acc), [])
      else if c =? 102 then Some (LString (12 :: acc), [])
      else if c =? 110 then Some (LString (10 :: acc), [])
      else if c =? 114 then Some (LString (13 :: acc), [])
      else if c =? 116 then Some (LString (9 :: acc), [])
      else if c =? 117 then Some (LUnicode acc [], [])
      else None
  | LUnicode acc ds =>
      match hex c with
      | Some h =>
          match ds with
          | [_; _; _] => Some (LString (code_of_hex (ds ++ [h]) :: acc), [])
          | _ => Some (LUnicode acc (ds ++ [h]), [])
          end
      | None => None
      end
  end.

(** Run the lexer from [st] with the tokens [out] found so far. *)
Fixpoint lrun (st : lstate) (out : list token) (s : jsstr)
  : option (lstate * list token) :=
  match s with
  | [] => Some (st, out)
  | c :: s' =>
      match lstep st c with
      | Some (st', ts) => lrun st' (out ++ ts) s'
      | None => None
      end
  end.

Definition lex (s : jsstr) : option (list token) :=
  match lrun LIdle [] s with
  | Some (st, out) =>
      match close st with
      | Some ts => Some (out ++ ts)
      | None => None
      end
  | None => None
  end.

(** *** The parser, one token at a time, with the open containers
    on a stack *)

Inductive ctx :=
| CArr (acc : list json)
| CObj (ms : list (jsstr * json)) (key : jsstr).

Inductive pstate :=
| PVal (stk : list ctx)
| PArrStart (stk : list ctx)
| PArrNext (stk : list ctx) (acc : list json)
| PObjStart (stk : list ctx)
| PObjKey (stk : list ctx) (ms : list (jsstr * json))
| PObjColon (stk : list ctx) (ms : list (jsstr * json)) (key : jsstr)
| PObjNext (stk : list ctx) (ms : list (jsstr * json))
| PDone (v : json).

(** Hand a finished value to the innermost open container. *)
Definition deliver (stk : list ctx) (v : json) : pstate :=
  match stk with
  | [] => PDone v
  | CArr acc :: stk' => PArrNext stk' (v :: acc)
  | CObj ms k :: stk' => PObjNext stk' (obj_set k v ms)
  end.

Definition pvalue (stk : list ctx) (t : token) : option pstate :=
  match t with
  | TNull => Some (deliver stk JNull)
  | TTrue => Some (deliver stk (JBool true))
  | TFalse => Some (deliver stk (JBool false))
  | TNum n => Some (deliver stk (JNum n))
  | TStr s => Some (deliver stk (JStr s))
  | TLBrack => Some (PArrStart stk)
  | TLBrace => Some (PObjStart stk)
  | _ => None
  end.

Definition pstep (st : pstate) (t : token) : option pstate :=
  match st with
  | PVal stk => pvalue stk t
  | PArrStart stk =>
      match t with
      | TRBrack => Some (deliver stk (JArr []))
      | _ => pvalue (CArr [] :: stk) t
      end
  | PArrNext stk acc =>
      match t with
      | TComma => Some (PVal (CArr acc :: stk))
      | TRBrack => Some (deliver stk (JArr (rev acc)))
      | _ => None
      end
  | PObjStart stk =>
      match t with
      | TRBrace => Some (deliver stk (JObj []))
      | TStr k => Some (PObjColon stk [] k)
      | _ => None
      end
  | PObjKey stk ms =>
      match t with
      | TStr k => Some (PObjColon stk ms k)
      | _ => None
      end
  | PObjColon stk ms k =>
      match t with
      | TColon => Some (PVal (CObj ms k :: stk))
      | _ => None
      end
  | PObjNext stk ms =>
      match t with
      | TComma => Some (PObjKey stk ms)
      | TRBrace => Some (deliver stk (JObj ms))
      | _ => None
      end
  | PDone _ => None
  end.

Fixpoint prun (st : pstate) (ts : list token) : option pstate :=
  match ts with
  | [] => Some st
  | t :: ts' =>
      match pstep st t with
      | Some st' => prun st' ts'
      | None => None
      end
  end.

(** [JSON.parse]: [None] stands for the SyntaxError it throws. *)
Definition parse (s : jsstr) : option json :=
  match lex s with
  | Some ts =>
      match prun (PVal []) ts with
      | Some (PDone v) => Some v
      | _ => None
      end
  | None => None
  end.

End Json.

Export Json.

(** ** Values at run time *)

(** ToBoolean of a parsed number: a literal is falsy when the double it
    rounds to is zero, that is when its magnitude is at most half the
    least subnormal, [2^-1075]. *)
Definition num_is_zero (n : number) : bool :=
  (mant n =? 0)
  || ((exp10 n <? 0)%Z
      && (Z.of_N (mant n) * 2 ^ 1075 <=? 10 ^ (- exp10 n))%Z).

(** ToBoolean, as [if (messages.messages)] applies it. *)
Definition truthy (v : json) : bool :=
  match v with
  | JNull => false
  | JBool b => b
  | JNum n => negb (num_is_zero n)
  | JStr s => match s with [] => false | _ => true end
  | JArr _ | JObj _ => true
  end.

(** ToBoolean of a value that may be [undefined]. *)
Definition truthy_opt (v : option json) : bool :=
  match v with
  | Some x => truthy x
  | None => false
  end.

(** What can be thrown: the engine's own errors and whatever a
    collaborator throws, with the message it carries, if any. *)
Inductive exn :=
| SyntaxError
| TypeError
| Thrown (message : option jsstr).

(** [error.message]: the engine words its own errors, a collaborator's
    error carries the text it was given, if any. *)
Inductive detail :=
| EngineText (e : exn)
| Text (s : jsstr).

Definition error_message (e : exn) : option detail :=
  match e with
  | Thrown m => option_map Text m
  | _ => Some (EngineText e)
  end.

(** What the handler sends: [res.send(obj)], with status 200 unless
    [res.status(500)] came first. *)
Inductive body :=
| Messages (messages : json)
| Failure (error : jsstr) (details : option detail).

Record response := Response { status : Z; sent : body }.

(** ** Buffer.prototype.toString("base64") *)

Module Base64.

Definition enc (i : N) : N :=
  if i <? 26 then 65 + i
  else if i <? 52 then 97 + (i - 26)
  else if i <? 62 then 48 + (i - 52)
  else if i =? 62 then 43
  else 47.

Definition pad : N := 61.

Fixpoint encode (bs : list N) : jsstr :=
  match bs with
  | [] => []
  | [a] =>
      [enc (N.shiftr a 2); enc (N.shiftl (N.land a 3) 4); pad; pad]
  | [a; b] =>
      [enc (N.shiftr a 2);
       enc (N.lor (N.shiftl (N.land a 3) 4) (N.shiftr b 4));
       enc (N.shiftl (N.land b 15) 2); pad]
  | a :: b :: c :: r =>
      enc (N.shiftr a 2)
      :: enc (N.lor (N.shiftl (N.land a 3) 4) (N.shiftr b 4))
      :: enc (N.lor (N.shiftl (N.land b 15) 2) (N.shiftr c 6))
      :: enc (N.land c 63)
      :: encode r
  end.

End Base64.

(** ** Promises and child_process.exec *)

Module Promise.

Inductive promise (A : Type) :=
| Pending
| Fulfilled (value : A)
| Rejected (reason : exn).

Arguments Pending {A}.
Arguments Fulfilled {A} value.
Arguments Rejected {A} reason.

(** A promise settles once: later calls of its resolving functions
    do nothing. *)
Definition resolve {A} (v : A) (p : promise A) : promise A :=
  match p with
  | Pending => Fulfilled v
  | _ => p
  end.

Definition reject {A} (e : exn) (p : promise A) : promise A :=
  match p with
  | Pending => Rejected e
  | _ => p
  end.

End Promise.

(** How a run under [exec] ended: the child exited with a status,
    without a signal and within the output limit; or a signal ended
    it; or it wrote more than [maxBuffer] on a stream, upon which
    [exec] ends it, whatever status it may have exited with by then;
    or it could not be started. *)
Inductive termination :=
| Exited (code : Z)
| Killed (signal : jsstr)
| Overflowed (stream : jsstr) (code : option Z)
| NotSpawned (message : jsstr).

Record process := Process {
  ended : termination;
  stdout : jsstr;
  stderr : jsstr
}.


(** The [error] that [exec] hands to its callback (Node's
    lib/child_process.js): null when the child exited with status
    zero, without a signal and within [maxBuffer]; the error of the
    overflow or of the failed start when there is one; and otherwise
    an Error whose message is the command line followed by what the
    process wrote on its error output. *)
Definition exec_error (command : jsstr) (p : process) : option exn :=
  match ended p with
  | Exited 0%Z => None
  | Exited _ | Killed _ =>
      Some (Thrown (Some (u16 "Command failed: " ++ command
                            ++ [Replace.LF] ++ stderr p)))
  | Overflowed stream _ =>
      Some (Thrown (Some (stream ++ u16 " maxBuffer length exceeded")))
  | NotSpawned message => Some (Thrown (Some message))
  end.

(** index.js lines 59-66: the callback body
    [if (error) reject(error); resolve(stdout);] run on a fresh
    promise. *)
Definition execCommand_promise (command : jsstr) (p : process)
  : Promise.promise jsstr :=
  let settled :=
    match exec_error command p with
    | Some error => Promise.reject error Promise.Pending
    | None => Promise.Pending
    end in
  Promise.resolve (stdout p) settled.

(** ** The collaborators and the monad of the handler *)

(** The outside world has a state of type [W]; every call may change
    it.  The language model answers with the text of its response or
    throws; speech synthesis writes a file or throws; a command runs a
    process to its end; a file read yields bytes or throws. *)
Record collaborators (W : Type) := Collaborators {
  generateContent : jsstr -> json -> W -> (exn + jsstr) * W;
  textToSpeech :
    option jsstr -> jsstr -> jsstr -> jsstr -> W -> (exn + unit) * W;
  exec : jsstr -> W -> process * W;
  readFile : jsstr -> W -> (exn + list N) * W;
  utf8 : list N -> jsstr
}.

Arguments generateContent {W}.
Arguments textToSpeech {W}.
Arguments exec {W}.
Arguments readFile {W}.
Arguments utf8 {W}.

(** The calls the handler makes, in the order it makes them. *)
Inductive event :=
| EvGenerate (message : json)
| EvSpeech (fileName text : jsstr)
| EvExec (command : jsstr)
| EvRead (file : jsstr).

(** Where this development stops following the program: an [await]
    on a promise that never settles, and a model output that is an
    object with a [length] of its own, which the loop would walk
    through number coercion. *)
Inductive gap :=
| NeverSettled
| LengthOfItsOwn.

(** What a computation may end in. *)
Inductive result (A : Type) :=
| Ok (a : A)
| Throw (e : exn)
| Beyond (g : gap).

Arguments Ok {A} a.
Arguments Throw {A} e.
Arguments Beyond {A} g.

(** The [messages] variable of the handler holds the one object the
    fragment loop mutates; it lives in the state so that a property
    assigned before an exception stays assigned. *)
Record store (W : Type) := Store {
  world : W;
  calls : list event;
  messages : json
}.

Arguments Store {W}.
Arguments world {W}.
Arguments calls {W}.
Arguments messages {W}.

Definition M (W A : Type) : Type := store W -> result A * store W.

Definition ret {W A} (a : A) : M W A := fun s => (Ok a, s).

Definition throw {W A} (e : exn) : M W A := fun s => (Throw e, s).

Definition beyond {W A} (g : gap) : M W A := fun s => (Beyond g, s).

Definition bind {W A B} (c : M W A) (k : A -> M W B) : M W B :=
  fun s =>
    match c s with
    | (Ok a, s') => k a s'
    | (Throw e, s') => (Throw e, s')
    | (Beyond g, s') => (Beyond g, s')
    end.

(** [try { c } catch (e) { h e }]: the state reached at the throw is
    the state the handler starts from. *)
Definition try_catch {W A} (c : M W A) (h : exn -> M W A) : M W A :=
  fun s =>
    match c s with
    | (Throw e, s') => h e s'
    | r => r
    end.

Declare Scope js_scope.
Delimit Scope js_scope with js.
Notation "x <- c ;; k" := (bind c (fun x => k))
  (at level 61, c at next level, right associativity) : js_scope.
Notation "c ;;; k" := (bind c (fun _ => k))
  (at level 61, right associativity) : js_scope.

Definition voiceID : jsstr := u16 "kgG7dCoKCfLehAPWkJOE".

(** [process.env], as far as the handler reads it. *)
Record config := Config {
  ELEVEN_LABS_API_KEY : option jsstr;
  GEMINI_API_KEY : option jsstr
}.

(** [process.env.GEMINI_API_KEY || "-"], the key the client is built
    with (line 27). *)
Definition genAI_key (cfg : config) : jsstr :=
  match GEMINI_API_KEY cfg with
  | Some (c :: k) => c :: k
  | _ => u16 "-"
  end.

Definition elevenLabsApiKey (cfg : config) : option jsstr :=
  ELEVEN_LABS_API_KEY cfg.

(** [!elevenLabsApiKey || process.env.GEMINI_API_KEY === "-"]
    (line 125). *)
Definition keys_missing (cfg : config) : bool :=
  negb (match elevenLabsApiKey cfg with
        | Some (_ :: _) => true
        | _ => false
        end)
  || match GEMINI_API_KEY cfg with
     | Some k => jsstr_eqb k (u16 "-")
     | None => false
     end.

(** [v.k] for a key that no prototype defines: an object answers
    with its own property, a primitive or an array has none. *)
Definition field (v : json) (k : jsstr) : option json :=
  match v with
  | JObj ms => lookup k ms
  | _ => None
  end.

(** Reading a property of [null] throws. *)
Definition get_field {W} (v : json) (k : jsstr) : M W (option json) :=
  match v with
  | JNull => throw TypeError
  | _ => ret (field v k)
  end.

(** [v.k] where [v] itself may be [undefined]. *)
Definition get_field_opt {W} (v : option json) (k : jsstr)
  : M W (option json) :=
  match v with
  | Some x => get_field x k
  | None => throw TypeError
  end.

(** [messages[i]]: an element of an array, a one-unit string of a
    string. *)
Definition index (v : json) (i : nat) : option json :=
  match v with
  | JArr items => nth_error items i
  | JStr s => option_map (fun c => JStr [c]) (nth_error s i)
  | _ => None
  end.

(** [messages.length] as the loop bound. *)
Inductive bound :=
| Upto (n : nat)
| NoLength
| OwnLength.

Definition length_of (v : json) : bound :=
  match v with
  | JArr items => Upto (List.length items)
  | JStr s => Upto (List.length s)
  | JObj ms =>
      match lookup (u16 "length") ms with
      | Some _ => OwnLength
      | None => NoLength
      end
  | _ => NoLength
  end.

(** [messages[i].k = v] on the stored [messages]; the module is
    strict, so assigning to a property of a primitive throws. *)
Definition assign (i : nat) (k : jsstr) (v : json) (ms : json)
  : option json :=
  match ms with
  | JArr items =>
      match nth_error items i with
      | Some (JObj fs) =>
          Some (JArr (firstn i items ++ JObj (obj_set k v fs)
                        :: skipn (S i) items))
      | _ => None
      end
  | _ => None
  end.

(** ** src/index.js *)

(** The path of a bundled asset. *)
Definition asset (name ext : string) : jsstr :=
  u16 "audios/" ++ u16 name ++ u16 ext.

Section Handler.

Context {W : Type} (C : collaborators W).

Local Open Scope js_scope.

Definition lift {A} (r : exn + A) : result A :=
  match r with
  | inl e => Throw e
  | inr a => Ok a
  end.

Definition record (ev : event) (w : W) (s : store W) : store W :=
  Store w (calls s ++ [ev]) (messages s).

(** [await model.generateContent(...)] then [.response.text()]. *)
Definition model_generateContent (key : jsstr) (text : json) : M W jsstr :=
  fun s =>
    let '(r, w) := generateContent C key text (world s) in
    (lift r, record (EvGenerate text) w s).

(** [await voice.textToSpeech(apiKey, voiceID, fileName, textInput)]. *)
Definition voice_textToSpeech (apiKey : option jsstr)
    (voice fileName textInput : jsstr) : M W unit :=
  fun s =>
    let '(r, w) := textToSpeech C apiKey voice fileName textInput (world s) in
    (lift r, record (EvSpeech fileName textInput) w s).

(** [await fs.readFile(file)]. *)
Definition fs_readFile (file : jsstr) : M W (list N) :=
  fun s =>
    let '(r, w) := readFile C file (world s) in
    (lift r, record (EvRead file) w s).

Definition await {A} (p : Promise.promise A) : M W A :=
  match p with
  | Promise.Fulfilled v => ret v
  | Promise.Rejected e => throw e
  | Promise.Pending => beyond NeverSettled
  end.

(** lines 59-66 *)
Definition execCommand (command : jsstr) : M W jsstr :=
  fun s =>
    let '(p, w) := exec C command (world s) in
    await (execCommand_promise command p) (record (EvExec command) w s).

Definition JSON_parse (text : jsstr) : M W json :=
  match parse text with
  | Some v => ret v
  | None => throw SyntaxError
  end.

(** lines 242-245 *)
Definition readJsonTranscript (file : jsstr) : M W json :=
  data <- fs_readFile file ;;
  JSON_parse (utf8 C data).

(** lines 247-250 *)
Definition audioFileToBase64 (file : jsstr) : M W jsstr :=
  data <- fs_readFile file ;;
  ret (Base64.encode data).

Definition message_file (i : nat) (ext : string) : jsstr :=
  u16 "audios/message_" ++ dec_of_nat i ++ u16 ext.

Definition ffmpeg_command (i : nat) : jsstr :=
  u16 "ffmpeg -y -i " ++ message_file i ".mp3" ++ u16 " "
    ++ message_file i ".wav".

Definition rhubarb_command (i : nat) : jsstr :=
  u16 "./bin/rhubarb -f json -o " ++ message_file i ".json" ++ u16 " "
    ++ message_file i ".wav" ++ u16 " -r phonetic".

(** lines 73-94: the catch logs and throws the error again. *)
Definition lipSyncMessage (messageIndex : nat) : M W unit :=
  try_catch
    (execCommand (ffmpeg_command messageIndex) ;;;
     execCommand (rhubarb_command messageIndex) ;;;
     ret tt)
    (fun error => throw error).

Definition get_messages : M W json := fun s => (Ok (messages s), s).

Definition set_messages (v : json) : M W unit :=
  fun s => (Ok tt, Store (world s) (calls s) v).

(** [message.k = v] for the [message] taken from [messages[i]]. *)
Definition assign_field (i : nat) (k : jsstr) (v : json) : M W unit :=
  fun s =>
    match assign i k v (messages s) with
    | Some ms => (Ok tt, Store (world s) (calls s) ms)
    | None => (Throw TypeError, s)
    end.

(** [textInput.substring(0, 50)] inside the log line of line 191:
    only a string has the method. *)
Definition substring_receiver (textInput : option json) : M W jsstr :=
  match textInput with
  | Some (JStr t) => ret t
  | _ => throw TypeError
  end.

(** lines 192-200, the media pipeline of one fragment: synthesis,
    transcode and viseme extraction, then the read-back, which sets
    [audio] and after that [lipsync]. *)
Definition media_pipeline (cfg : config) (i : nat) (textInput : jsstr)
  : M W unit :=
  let fileName := message_file i ".mp3" in
  voice_textToSpeech (elevenLabsApiKey cfg) voiceID fileName textInput ;;;
  lipSyncMessage i ;;;
  audio <- audioFileToBase64 fileName ;;
  assign_field i (u16 "audio") (JStr audio) ;;;
  lipsync <- readJsonTranscript (message_file i ".json") ;;
  assign_field i (u16 "lipsync") lipsync.

(** lines 185-205, one turn of the loop.  [message.text] is read
    before the [try]; the [catch] logs and goes on. *)
Definition iteration (cfg : config) (i : nat) : M W unit :=
  ms <- get_messages ;;
  let message := index ms i in
  textInput <- get_field_opt message (u16 "text") ;;
  try_catch
    (text <- substring_receiver textInput ;;
     media_pipeline cfg i text)
    (fun audioError => ret tt).

(** [for (let i = 0; i < messages.length; i++)], for the [n] turns
    left from index [i]. *)
Fixpoint loop (cfg : config) (n i : nat) : M W unit :=
  match n with
  | O => ret tt
  | S n' => iteration cfg i ;;; loop cfg n' (S i)
  end.

Definition fragment (text audio : jsstr) (lipsync : json)
    (facialExpression animation : string) : json :=
  JObj [(u16 "text", JStr text);
        (u16 "audio", JStr audio);
        (u16 "lipsync", lipsync);
        (u16 "facialExpression", JStr (u16 facialExpression));
        (u16 "animation", JStr (u16 animation))].

(** A canned pair: four awaited reads, in the order of the object
    literal, then the send. *)
Definition canned (asset0 asset1 : string)
    (reply : jsstr -> json -> jsstr -> json -> json) : M W response :=
  audio0 <- audioFileToBase64 (asset asset0 ".wav") ;;
  lipsync0 <- readJsonTranscript (asset asset0 ".json") ;;
  audio1 <- audioFileToBase64 (asset asset1 ".wav") ;;
  lipsync1 <- readJsonTranscript (asset asset1 ".json") ;;
  ret (Response 200 (Messages (reply audio0 lipsync0 audio1 lipsync1))).

(** lines 103-120 *)
Definition greeting (audio0 : jsstr) (lipsync0 : json)
    (audio1 : jsstr) (lipsync1 : json) : json :=
  JArr [fragment (u16 "Hey dear... How was your day?")
          audio0 lipsync0 "smile" "Talking_1";
        fragment (u16 "I missed you so much... Please don't go for so long!")
          audio1 lipsync1 "sad" "Crying"].

(** lines 126-143 *)
Definition add_your_keys (audio0 : jsstr) (lipsync0 : json)
    (audio1 : jsstr) (lipsync1 : json) : json :=
  JArr [fragment (u16 "Please my dear, don't forget to add your API keys!")
          audio0 lipsync0 "angry" "Angry";
        fragment (u16 "You don't want to ruin this with a crazy Gemini and ElevenLabs bill, right?")
          audio1 lipsync1 "smile" "Laughing"].

(** [userMessage || "Hello"] *)
Definition or_hello (userMessage : option json) : json :=
  match userMessage with
  | Some v => if truthy v then v else JStr (u16 "Hello")
  | None => JStr (u16 "Hello")
  end.

(** lines 178-181: [if (messages.messages) messages = messages.messages]. *)
Definition unwrap (parsed : json) : M W json :=
  inner <- get_field parsed (u16 "messages") ;;
  match inner with
  | Some v => if truthy v then ret v else ret parsed
  | None => ret parsed
  end.

(** lines 178-232: from the parsed reply to the send. *)
Definition process_reply (cfg : config) (parsed : json) : M W response :=
  list <- unwrap parsed ;;
  set_messages list ;;;
  match length_of list with
  | Upto n => loop cfg n 0
  | NoLength => ret tt
  | OwnLength => beyond LengthOfItsOwn
  end ;;;
  final <- get_messages ;;
  ret (Response 200 (Messages final)).

(** lines 99-232, the body of the outer [try]. *)
Definition chat_try (cfg : config) (req_body : json) : M W response :=
  userMessage <- get_field req_body (u16 "message") ;;
  if negb (truthy_opt userMessage) then
    canned "intro_0" "intro_1" greeting
  else if keys_missing cfg then
    canned "api_0" "api_1" add_your_keys
  else
    responseText <- model_generateContent (genAI_key cfg) (or_hello userMessage) ;;
    parsed <- JSON_parse (strip_fences responseText) ;;
    process_reply cfg parsed.

(** lines 97-240: the handler of POST /chat. *)
Definition chat (cfg : config) (req_body : json) : M W response :=
  try_catch (chat_try cfg req_body)
    (fun error =>
       ret (Response 500
              (Failure (u16 "Failed to process message")
                 (error_message error)))).

End Handler.

(** One request against a world: the handler starts with no call made
    and [messages] not yet assigned. *)
Definition post_chat {W} (C : collaborators W) (cfg : config)
    (req_body : json) (w : W) : result response * store W :=
  chat C cfg req_body (Store w [] JNull).

(** ** Vocabulary of the statements *)

(** How a fragment of the model can come out of the loop: as it was, or
    with [audio] set, or with [audio] and then [lipsync] set. *)
Inductive emitted (m : json) : json -> Prop :=
| as_given : emitted m m
| with_audio (members : list (jsstr * json)) (audio : jsstr) :
    m = JObj members ->
    emitted m (JObj (obj_set (u16 "audio") (JStr audio) members))
| with_media (members : list (jsstr * json)) (audio : jsstr)
    (lipsync : json) :
    m = JObj members ->
    emitted m
      (JObj (obj_set (u16 "lipsync") lipsync
               (obj_set (u16 "audio") (JStr audio) members))).



(** The computation changes no variable of the handler, only adds to
    the calls made, and always comes back. *)
Definition framed {W A} (c : M W A) : Prop :=
  forall s : store W,
  exists (r : result A) (w1 : W) (evs : list event),
    c s = (r, Store w1 (calls s ++ evs) (messages s))
    /\ forall g, r <> Beyond g.

(** A call that is a file read: neither the language model nor a step
    of the media pipeline (synthesis, transcode, viseme extraction). *)
Definition is_read (ev : event) : bool :=
  match ev with
  | EvRead _ => true
  | _ => false
  end.

(** A reply [s] inside a Markdown code fence, with or without a line
    feed after the opening fence and before the closing one. *)
Definition fenced (lf_open lf_close : bool) (s : jsstr) : jsstr :=
  fence_json ++ (if lf_open then [Replace.LF] else []) ++ s
    ++ (if lf_close then [Replace.LF] else []) ++ fence.

(** The lexer never waits for a line feed inside a keyword. *)
Definition keyword_ok (st : lstate) : bool :=
  match st with
  | LWord rest _ => negb (existsb (N.eqb Replace.LF) rest)
  | _ => true
  end.

(** ** Sample worlds and replies

    A world without state: the model answers [reply], speech synthesis
    ends as [speech] says, every command ends as [tool] says, and
    [disk] tells which files can be read. *)
Definition fixed_world (reply : exn + jsstr) (speech : exn + unit)
    (tool : jsstr -> process) (disk : jsstr -> option (list N))
  : collaborators unit :=
  {| generateContent := fun _ _ w => (reply, w);
     textToSpeech := fun _ _ _ _ w => (speech, w);
     exec := fun command w => (tool command, w);
     readFile := fun file w =>
       (match disk file with
        | Some data => inr data
        | None => inl (Thrown (Some (u16 "ENOENT")))
        end, w);
     utf8 := fun data => data |}.

Definition quote : jsstr := [34].

Definition succeeds (command : jsstr) : process :=
  Process (Exited 0) [] [].

(** Every file holds the JSON text [{}]. *)
Definition disk_of_objects (file : jsstr) : option (list N) :=
  Some (u16 "{}").

(** As [disk_of_objects], but the transcripts (the [.json] files) are
    empty, which is not JSON. *)
Definition disk_with_empty_transcripts (file : jsstr) : option (list N) :=
  match rev file with
  | 110 :: 111 :: 115 :: 106 :: 46 :: _ => Some []
  | _ => Some (u16 "{}")
  end.

Definition says (text : string) : json :=
  JObj [(u16 "message", JStr (u16 text))].

Definition both_keys : config :=
  Config (Some (u16 "eleven")) (Some (u16 "gemini")).

(** [[{"text":"hi","facialExpression":"smile","animation":"Idle"}]] *)
Definition one_fragment_reply : jsstr :=
  u16 "[{" ++ quote ++ u16 "text" ++ quote ++ u16 ":" ++ quote ++ u16 "hi"
    ++ quote ++ u16 "," ++ quote ++ u16 "facialExpression" ++ quote
    ++ u16 ":" ++ quote ++ u16 "smile" ++ quote ++ u16 "," ++ quote
    ++ u16 "animation" ++ quote ++ u16 ":" ++ quote ++ u16 "Idle" ++ quote
    ++ u16 "}]".

(** [```json\n[ ]\n```] *)
Definition fenced_empty_array : jsstr :=
  u16 "```json" ++ [Replace.LF] ++ u16 "[ ]" ++ [Replace.LF] ++ u16 "```".

(** The Gemini key is not in the environment, the ElevenLabs key is. *)
Definition gemini_key_unset : config :=
  Config (Some (u16 "eleven")) None.

(** [[{"text":"```"}]]: one fragment whose text is three backticks. *)
Definition backticks_reply : jsstr :=
  u16 "[{" ++ quote ++ u16 "text" ++ quote ++ u16 ":" ++ quote ++ u16 "```"
    ++ quote ++ u16 "}]".

(** [{"text":"hi","facialExpression":"smile","animation":"Idle"}] *)
Definition one_fragment : json :=
  JObj [(u16 "text", JStr (u16 "hi"));
        (u16 "facialExpression", JStr (u16 "smile"));
        (u16 "animation", JStr (u16 "Idle"))].

(** [{"facialExpression":"sad"}]: a fragment without [text]. *)
Definition textless_fragment : json :=
  JObj [(u16 "facialExpression", JStr (u16 "sad"))].

(** [[{"facialExpression":"sad"},{"text":"hi",...}]] *)
Definition textless_then_fragment_reply : jsstr :=
  u16 "[{" ++ quote ++ u16 "facialExpression" ++ quote ++ u16 ":" ++ quote
    ++ u16 "sad" ++ quote ++ u16 "}," ++ tl one_fragment_reply.

(** ** Further samples *)

(** No file can be read. *)
Definition empty_disk (file : jsstr) : option (list N) := None.

Definition quota_exceeded : exn := Thrown (Some (u16 "quota exceeded")).

(** [null] *)
Definition null_reply : jsstr := u16 "null".

(** [[{"text":"hi",...},null]] *)
Definition fragment_then_null_reply : jsstr :=
  removelast one_fragment_reply ++ u16 ",null]".

(** [{"text":"hi",...}]: one fragment, not in an array. *)
Definition bare_fragment_reply : jsstr :=
  tl (removelast one_fragment_reply).

(** The ElevenLabs key is the empty string. *)
Definition eleven_key_empty : config :=
  Config (Some []) (Some (u16 "gemini")).

(** A reply that is neither a list nor unwrapped to anything: a
    boolean, a number, a string, or an object whose [messages] is
    absent or falsy and that has no [length] of its own. *)
Definition sent_as_is (v : json) : bool :=
  match v with
  | JBool _ | JNum _ | JStr _ => true
  | JObj ms =>
      negb (truthy_opt (lookup (u16 "messages") ms))
      && match lookup (u16 "length") ms with
         | Some _ => false
         | None => true
         end
  | JNull | JArr _ => false
  end.

(** Every command exits with status one. *)
Definition fails (command : jsstr) : process :=
  Process (Exited 1) [] (u16 "error").

(** The handler's variables when the loop starts on [one_fragment]. *)
Definition at_one_fragment : store unit := Store tt [] (JArr [one_fragment]).

(** ** Further vocabulary *)

(** A call other than a call of the language model. *)
Definition not_generate (ev : event) : bool :=
  match ev with
  | EvGenerate _ => false
  | _ => true
  end.

(** The computation only adds calls to those made, none of them a
    call of the language model. *)
Definition model_free {W A} (c : M W A) : Prop :=
  forall s : store W,
  exists evs : list event,
    calls (snd (c s)) = calls s ++ evs /\ forallb not_generate evs = true.

(** [one_fragment] after a pipeline run against [disk_of_objects]. *)
Definition one_fragment_with_media : json :=
  JObj [(u16 "text", JStr (u16 "hi"));
        (u16 "facialExpression", JStr (u16 "smile"));
        (u16 "animation", JStr (u16 "Idle"));
        (u16 "audio", JStr (u16 "e30="));
        (u16 "lipsync", JObj [])].

(** ** Reading a base64 text back

    The inverse of [Base64.encode], as RFC 4648 has it: four units
    give three bytes, and padding is accepted in the last group
    only. *)

Module Base64Decode.

Definition dec (c : N) : option N :=
  if (65 <=? c) && (c <=? 90) then Some (c - 65)
  else if (97 <=? c) && (c <=? 122) then Some (c - 71)
  else if (48 <=? c) && (c <=? 57) then Some (c + 4)
  else if c =? 43 then Some 62
  else if c =? 47 then Some 63
  else None.

Fixpoint decode (cs : jsstr) : option (list N) :=
  match cs with
  | [] => Some []
  | c0 :: c1 :: c2 :: c3 :: r =>
      match dec c0, dec c1 with
      | Some x0, Some x1 =>
          let a := N.lor (N.shiftl x0 2) (N.shiftr x1 4) in
          if c2 =? Base64.pad then
            match r with
            | [] => if c3 =? Base64.pad then Some [a] else None
            | _ => None
            end
          else
            match dec c2 with
            | Some x2 =>
                let b := N.lor (N.shiftl (N.land x1 15) 4) (N.shiftr x2 2) in
                if c3 =? Base64.pad then
                  match r with
                  | [] => Some [a; b]
                  | _ => None
                  end
                else
                  match dec c3, decode r with
                  | Some x3, Some rest =>
                      Some (a :: b :: N.lor (N.shiftl (N.land x2 3) 6) x3
                              :: rest)
                  | _, _ => None
                  end
            | None => None
            end
      | _, _ => None
      end
  | _ => None
  end.

End Base64Decode.

(** The bytes, [0] to [255]. *)
Definition all_bytes : list N := map N.of_nat (seq 0 256).

(** [x] is [Some y]. *)
Definition option_eqb (x : option N) (y : N) : bool :=
  match x with
  | Some v => v =? y
  | None => false
  end.

(** What a [Buffer] holds. *)
Definition is_byte (b : N) : Prop := b < 256.

(** A reply [s] inside a fence whose opening has no [json] tag. *)
Definition plainly_fenced (s : jsstr) : jsstr :=
  fence ++ [Replace.LF] ++ s ++ [Replace.LF] ++ fence.

(** ffmpeg exits with status zero, every other command with one. *)
Definition only_ffmpeg_succeeds (command : jsstr) : process :=
  match command with
  | 102 :: _ => succeeds command
  | _ => fails command
  end.

(** As [disk_of_objects], but no [.mp3] file can be read. *)
Definition disk_without_mp3 (file : jsstr) : option (list N) :=
  match rev file with
  | 51 :: 112 :: 109 :: 46 :: _ => None
  | _ => Some (u16 "{}")
  end.


(** ** Samples with more than one fragment *)

(** [{"text":"yo","facialExpression":"sad","animation":"Crying"}] *)
Definition second_fragment : json :=
  JObj [(u16 "text", JStr (u16 "yo"));
        (u16 "facialExpression", JStr (u16 "sad"));
        (u16 "animation", JStr (u16 "Crying"))].

Definition second_fragment_with_media : json :=
  JObj [(u16 "text", JStr (u16 "yo"));
        (u16 "facialExpression", JStr (u16 "sad"));
        (u16 "animation", JStr (u16 "Crying"));
        (u16 "audio", JStr (u16 "e30="));
        (u16 "lipsync", JObj [])].

(** [[{"text":"hi",...},{"text":"yo",...}]] *)
Definition two_fragments_reply : jsstr :=
  removelast one_fragment_reply
    ++ u16 ",{" ++ quote ++ u16 "text" ++ quote ++ u16 ":" ++ quote
    ++ u16 "yo" ++ quote ++ u16 "," ++ quote ++ u16 "facialExpression"
    ++ quote ++ u16 ":" ++ quote ++ u16 "sad" ++ quote ++ u16 "," ++ quote
    ++ u16 "animation" ++ quote ++ u16 ":" ++ quote ++ u16 "Crying" ++ quote
    ++ u16 "}]".

(** [{"messages":[{"text":"hi",...},{"text":"yo",...}]}] *)
Definition wrapped_fragments_reply : jsstr :=
  u16 "{" ++ quote ++ u16 "messages" ++ quote ++ u16 ":"
    ++ two_fragments_reply ++ u16 "}".

(** [[{"facialExpression":"sad"},null]] *)
Definition textless_then_null_reply : jsstr :=
  u16 "[{" ++ quote ++ u16 "facialExpression" ++ quote ++ u16 ":" ++ quote
    ++ u16 "sad" ++ quote ++ u16 "},null]".

(** The answer of a model-driven turn, from how its loop ended and
    the [messages] it left. *)
Definition answer_after (run : result unit) (left : json) : result response :=
  match run with
  | Ok _ => Ok (Response 200 (Messages left))
  | Throw e =>
      Ok (Response 500
            (Failure (u16 "Failed to process message") (error_message e)))
  | Beyond g => Beyond g
  end.

(** * Properties *)

(** ** The model itself *)

Lemma jsstr_eqb_eq (a b : jsstr) : jsstr_eqb a b = true <-> a = b.
Proof.
  revert b. induction a as [| x a IH]; intros [| y b]; cbn;
    try (split; intro H; [reflexivity || discriminate H | reflexivity || discriminate H]).
  rewrite andb_true_iff, N.eqb_eq, IH. split.
  - intros [-> ->]. reflexivity.
  - intro H. inversion H. now split.
Qed.

(** A key that was set is there, with the value it was set to. *)
Lemma lookup_obj_set (k : jsstr) (v : json) (ms : list (jsstr * json)) :
  lookup k (obj_set k v ms) = Some v.
Proof.
  assert (R : jsstr_eqb k k = true) by now apply jsstr_eqb_eq.
  induction ms as [| [k' v'] ms IH]; cbn.
  - now rewrite R.
  - destruct (jsstr_eqb k k') eqn:E; cbn; now rewrite E.
Qed.


(** ** The external-tool invoker *)

Lemma execCommand_promise_settled (command : jsstr) (p : process) :
  execCommand_promise command p
  = match exec_error command p with
    | Some error => Promise.Rejected error
    | None => Promise.Fulfilled (stdout p)
    end.
Proof.
  unfold execCommand_promise.
  destruct (exec_error command p); reflexivity.
Qed.

Lemma exec_error_none (command : jsstr) (p : process) :
  exec_error command p = None <-> ended p = Exited 0.
Proof.
  unfold exec_error.
  destruct (ended p) as [[| c | c] | sg | st c | m]; split; intro H;
    try reflexivity; discriminate H.
Qed.




(** ** Model-driven turns *)

Section NormalTurn.

Context {W : Type} (C : collaborators W).
Variables (cfg : config) (req_body : json) (w w' : W) (text : jsstr).

Hypothesis message_given :
  truthy_opt (field req_body (u16 "message")) = true.
Hypothesis keys_given : keys_missing cfg = false.
Hypothesis model_answers :
  generateContent C (genAI_key cfg)
    (or_hello (field req_body (u16 "message"))) w = (inr text, w').

(** A turn with a message and both keys goes to the model, and from
    there to the parser. *)
Lemma normal_turn_parses (s : store W) :
  world s = w ->
  chat_try C cfg req_body s
  = bind (JSON_parse (strip_fences text)) (process_reply C cfg)
      (record (EvGenerate (or_hello (field req_body (u16 "message"))))
         w' s).
Proof.
  intro Hw. unfold chat_try, bind at 1, get_field.
  assert (Hf : (match req_body with
                | JNull => throw TypeError
                | _ => ret (field req_body (u16 "message"))
                end : M W (option json)) s
               = (Ok (field req_body (u16 "message")), s)).
  { destruct req_body; try reflexivity.
    cbn in message_given. discriminate message_given. }
  rewrite Hf, message_given, keys_given.
  cbn [negb]. unfold bind at 1, model_generateContent.
  rewrite Hw, model_answers. reflexivity.
Qed.

(** C3: when the text of the model, fences stripped, is not JSON,
    the request as a whole is answered with status 500 and a body of
    an [error] and the [details] of the syntax error; no fragment was
    produced and no pipeline step ran. *)
Theorem malformed_reply_fails_the_request :
  parse (strip_fences text) = None ->
  post_chat C cfg req_body w
  = (Ok (Response 500
           (Failure (u16 "Failed to process message")
              (Some (EngineText SyntaxError)))),
     Store w' [EvGenerate (or_hello (field req_body (u16 "message")))]
       JNull).
Proof.
  intro Hp. unfold post_chat, chat, try_catch.
  rewrite normal_turn_parses by reflexivity.
  unfold bind, JSON_parse. rewrite Hp. reflexivity.
Qed.

(** C9: when the text of the model parses to the empty array, or to
    an object whose [messages] is the empty array, the request is
    answered with status 200 and [{messages: []}], and the model call
    is the only call made. *)
Theorem empty_reply_succeeds (parsed : json) :
  parse (strip_fences text) = Some parsed ->
  parsed = JArr [] \/ field parsed (u16 "messages") = Some (JArr []) ->
  post_chat C cfg req_body w
  = (Ok (Response 200 (Messages (JArr []))),
     Store w' [EvGenerate (or_hello (field req_body (u16 "message")))]
       (JArr [])).
Proof.
  intros Hp Hshape. unfold post_chat, chat, try_catch.
  rewrite normal_turn_parses by reflexivity.
  unfold bind at 1, JSON_parse. rewrite Hp. cbn [ret].
  destruct Hshape as [-> | Hm].
  - reflexivity.
  - destruct parsed; try discriminate Hm.
    unfold process_reply, bind at 1, unwrap, bind at 1, get_field.
    cbn [ret]. rewrite Hm. reflexivity.
Qed.

End NormalTurn.

Lemma malformed_reply_fails_the_request_witness :
  post_chat (fixed_world (inr (u16 "oops")) (inr tt) succeeds disk_of_objects)
    both_keys (says "hello") tt
  = (Ok (Response 500
           (Failure (u16 "Failed to process message")
              (Some (EngineText SyntaxError)))),
     Store tt [EvGenerate (JStr (u16 "hello"))] JNull).
Proof.
  apply (malformed_reply_fails_the_request
           (fixed_world (inr (u16 "oops")) (inr tt) succeeds disk_of_objects)
           both_keys (says "hello") tt tt (u16 "oops"));
    reflexivity.
Defined.

Lemma empty_reply_succeeds_witness :
  post_chat (fixed_world (inr fenced_empty_array) (inr tt) succeeds
               disk_of_objects)
    both_keys (says "hello") tt
  = (Ok (Response 200 (Messages (JArr []))),
     Store tt [EvGenerate (JStr (u16 "hello"))] (JArr [])).
Proof.
  apply empty_reply_succeeds
    with (text := fenced_empty_array) (parsed := JArr []);
    [reflexivity | reflexivity | reflexivity | reflexivity | now left].
Defined.

(** ** Canned turns *)

Section Canned.

Context {W : Type} (C : collaborators W).

Lemma only_reads_snoc (evs : list event) (file : jsstr) :
  forallb is_read evs = true ->
  forallb is_read (evs ++ [EvRead file]) = true.
Proof.
  intro H. rewrite forallb_app, H. reflexivity.
Qed.

Lemma audioFileToBase64_only_reads (file : jsstr) (s : store W) :
  forallb is_read (calls s) = true ->
  forallb is_read (calls (snd (audioFileToBase64 C file s))) = true.
Proof.
  intro H. unfold audioFileToBase64, bind, fs_readFile.
  destruct (readFile C file (world s)) as [[e | data] w1]; cbn;
    now apply only_reads_snoc.
Qed.

Lemma readJsonTranscript_only_reads (file : jsstr) (s : store W) :
  forallb is_read (calls s) = true ->
  forallb is_read (calls (snd (readJsonTranscript C file s))) = true.
Proof.
  intro H. unfold readJsonTranscript, bind, fs_readFile, JSON_parse.
  destruct (readFile C file (world s)) as [[e | data] w1]; cbn;
    [| destruct (parse (utf8 C data)); cbn]; now apply only_reads_snoc.
Qed.

(** The state after [c] then [k]: that of [k] if [c] returned, that
    of [c] otherwise. *)
Lemma bind_only_reads {A B} (c : M W A) (k : A -> M W B) (s : store W) :
  forallb is_read (calls (snd (c s))) = true ->
  (forall a s1, forallb is_read (calls s1) = true ->
                forallb is_read (calls (snd (k a s1))) = true) ->
  forallb is_read (calls (snd (bind c k s))) = true.
Proof.
  intros Hc Hk. unfold bind.
  destruct (c s) as [[a | e | g] s1]; cbn in *; auto.
Qed.

Lemma canned_only_reads (a0 a1 : string)
    (reply : jsstr -> json -> jsstr -> json -> json) (s : store W) :
  forallb is_read (calls s) = true ->
  forallb is_read (calls (snd (canned C a0 a1 reply s))) = true.
Proof.
  intro H. unfold canned.
  apply bind_only_reads; [now apply audioFileToBase64_only_reads |].
  intros audio0 s1 H1.
  apply bind_only_reads; [now apply readJsonTranscript_only_reads |].
  intros lipsync0 s2 H2.
  apply bind_only_reads; [now apply audioFileToBase64_only_reads |].
  intros audio1 s3 H3.
  apply bind_only_reads; [now apply readJsonTranscript_only_reads |].
  intros lipsync1 s4 H4. exact H4.
Qed.

Lemma audioFileToBase64_reads (file : jsstr) (s : store W)
    (data : list N) (w1 : W) :
  readFile C file (world s) = (inr data, w1) ->
  audioFileToBase64 C file s
  = (Ok (Base64.encode data), record (EvRead file) w1 s).
Proof.
  intro H. unfold audioFileToBase64, bind, fs_readFile. now rewrite H.
Qed.

Lemma readJsonTranscript_reads (file : jsstr) (s : store W)
    (data : list N) (w1 : W) (v : json) :
  readFile C file (world s) = (inr data, w1) ->
  parse (utf8 C data) = Some v ->
  readJsonTranscript C file s = (Ok v, record (EvRead file) w1 s).
Proof.
  intros H P. unfold readJsonTranscript, bind, fs_readFile, JSON_parse.
  rewrite H. cbn [lift]. now rewrite P.
Qed.

(** With its four assets readable, a canned turn sends its pair and
    has made the four reads. *)
Lemma canned_sends (a0 a1 : string)
    (reply : jsstr -> json -> jsstr -> json -> json) (s : store W)
    (wav0 json0 wav1 json1 : list N) (w1 w2 w3 w4 : W)
    (lipsync0 lipsync1 : json) :
  readFile C (asset a0 ".wav") (world s) = (inr wav0, w1) ->
  readFile C (asset a0 ".json") w1 = (inr json0, w2) ->
  parse (utf8 C json0) = Some lipsync0 ->
  readFile C (asset a1 ".wav") w2 = (inr wav1, w3) ->
  readFile C (asset a1 ".json") w3 = (inr json1, w4) ->
  parse (utf8 C json1) = Some lipsync1 ->
  canned C a0 a1 reply s
  = (Ok (Response 200
           (Messages (reply (Base64.encode wav0) lipsync0
                        (Base64.encode wav1) lipsync1))),
     Store w4
       (calls s ++ [EvRead (asset a0 ".wav"); EvRead (asset a0 ".json");
                    EvRead (asset a1 ".wav"); EvRead (asset a1 ".json")])
       (messages s)).
Proof.
  intros R0 T0 P0 R1 T1 P1. unfold canned.
  unfold bind at 1. rewrite (audioFileToBase64_reads _ _ _ _ R0).
  unfold bind at 1.
  rewrite (readJsonTranscript_reads _ (record _ w1 s) _ _ _ T0 P0).
  unfold bind at 1.
  rewrite (audioFileToBase64_reads _ (record _ w2 (record _ w1 s)) _ _ R1).
  unfold bind at 1.
  rewrite (readJsonTranscript_reads _
             (record _ w3 (record _ w2 (record _ w1 s))) _ _ _ T1 P1).
  unfold ret, record. cbn [calls messages world].
  now rewrite <- !app_assoc.
Qed.

End Canned.

Section CannedTurns.

Context {W : Type} (C : collaborators W).
Variables (cfg : config) (req_body : json) (w : W).

Lemma chat_keeps_calls_of_try (s : store W) :
  calls (snd (chat C cfg req_body s))
  = calls (snd (chat_try C cfg req_body s)).
Proof.
  unfold chat, try_catch.
  destruct (chat_try C cfg req_body s) as [[r | e | g] s1]; reflexivity.
Qed.

Lemma greeting_branch (s : store W) :
  req_body <> JNull ->
  truthy_opt (field req_body (u16 "message")) = false ->
  chat_try C cfg req_body s = canned C "intro_0" "intro_1" greeting s.
Proof.
  intros Hb Hm. unfold chat_try, bind at 1, get_field.
  destruct req_body; try contradiction; cbn [ret];
    rewrite Hm; reflexivity.
Qed.

Lemma misconfigured_branch (s : store W) :
  truthy_opt (field req_body (u16 "message")) = true ->
  keys_missing cfg = true ->
  chat_try C cfg req_body s = canned C "api_0" "api_1" add_your_keys s.
Proof.
  intros Hm Hk. unfold chat_try, bind at 1, get_field.
  destruct req_body; try discriminate Hm; cbn [ret];
    rewrite Hm, Hk; reflexivity.
Qed.

(** The greeting turn, in the handler's own terms. *)
Lemma greeting_turn :
  req_body <> JNull ->
  truthy_opt (field req_body (u16 "message")) = false ->
  forallb is_read (calls (snd (post_chat C cfg req_body w))) = true
  /\ forall (wav0 json0 wav1 json1 : list N) (w1 w2 w3 w4 : W)
            (lipsync0 lipsync1 : json),
      readFile C (asset "intro_0" ".wav") w = (inr wav0, w1) ->
      readFile C (asset "intro_0" ".json") w1 = (inr json0, w2) ->
      parse (utf8 C json0) = Some lipsync0 ->
      readFile C (asset "intro_1" ".wav") w2 = (inr wav1, w3) ->
      readFile C (asset "intro_1" ".json") w3 = (inr json1, w4) ->
      parse (utf8 C json1) = Some lipsync1 ->
      post_chat C cfg req_body w
      = (Ok (Response 200
               (Messages
                  (JArr [fragment (u16 "Hey dear... How was your day?")
                           (Base64.encode wav0) lipsync0
                           "smile" "Talking_1";
                         fragment
                           (u16 "I missed you so much... Please don't go for so long!")
                           (Base64.encode wav1) lipsync1
                           "sad" "Crying"]))),
         Store w4
           [EvRead (asset "intro_0" ".wav"); EvRead (asset "intro_0" ".json");
            EvRead (asset "intro_1" ".wav"); EvRead (asset "intro_1" ".json")]
           JNull).
Proof.
  intros Hb Hm. split.
  - unfold post_chat. rewrite chat_keeps_calls_of_try.
    rewrite greeting_branch by assumption.
    now apply canned_only_reads.
  - intros wav0 json0 wav1 json1 w1 w2 w3 w4 lipsync0 lipsync1
      R0 T0 P0 R1 T1 P1.
    unfold post_chat, chat, try_catch.
    rewrite greeting_branch by assumption.
    rewrite (canned_sends C "intro_0" "intro_1" greeting
               (Store w [] JNull) wav0 json0 wav1 json1 w1 w2 w3 w4
               lipsync0 lipsync1 R0 T0 P0 R1 T1 P1).
    reflexivity.
Qed.

(** With a message given and [keys_missing] true, the turn is the
    canned pair about the keys, angry then smile, and only the
    [api_0] and [api_1] assets are read. *)
Lemma add_your_keys_on_missing_keys :
  truthy_opt (field req_body (u16 "message")) = true ->
  keys_missing cfg = true ->
  forallb is_read (calls (snd (post_chat C cfg req_body w))) = true
  /\ forall (wav0 json0 wav1 json1 : list N) (w1 w2 w3 w4 : W)
            (lipsync0 lipsync1 : json),
      readFile C (asset "api_0" ".wav") w = (inr wav0, w1) ->
      readFile C (asset "api_0" ".json") w1 = (inr json0, w2) ->
      parse (utf8 C json0) = Some lipsync0 ->
      readFile C (asset "api_1" ".wav") w2 = (inr wav1, w3) ->
      readFile C (asset "api_1" ".json") w3 = (inr json1, w4) ->
      parse (utf8 C json1) = Some lipsync1 ->
      post_chat C cfg req_body w
      = (Ok (Response 200
               (Messages
                  (add_your_keys (Base64.encode wav0) lipsync0
                     (Base64.encode wav1) lipsync1))),
         Store w4
           [EvRead (asset "api_0" ".wav"); EvRead (asset "api_0" ".json");
            EvRead (asset "api_1" ".wav"); EvRead (asset "api_1" ".json")]
           JNull).
Proof.
  intros Hm Hk. split.
  - unfold post_chat. rewrite chat_keeps_calls_of_try.
    rewrite misconfigured_branch by assumption.
    now apply canned_only_reads.
  - intros wav0 json0 wav1 json1 w1 w2 w3 w4 lipsync0 lipsync1
      R0 T0 P0 R1 T1 P1.
    unfold post_chat, chat, try_catch.
    rewrite misconfigured_branch by assumption.
    rewrite (canned_sends C "api_0" "api_1" add_your_keys
               (Store w [] JNull) wav0 json0 wav1 json1 w1 w2 w3 w4
               lipsync0 lipsync1 R0 T0 P0 R1 T1 P1).
    reflexivity.
Qed.

End CannedTurns.

(** C7: a request whose body has no [message], or a falsy one, never
    reaches the language model or the media pipeline, whatever else
    the request and the environment hold; and with the four intro
    assets readable it is answered with exactly two fragments, smile
    with Talking_1 then sad with Crying, whose [audio] and [lipsync]
    are the contents of [audios/intro_0] and [audios/intro_1]. *)
Theorem greeting_on_missing_message
    {W : Type} (C : collaborators W) (cfg : config) (req_body : json)
    (w : W) :
  req_body <> JNull ->
  truthy_opt (field req_body (u16 "message")) = false ->
  forallb is_read (calls (snd (post_chat C cfg req_body w))) = true
  /\ forall (wav0 json0 wav1 json1 : list N) (w1 w2 w3 w4 : W)
            (lipsync0 lipsync1 : json),
      readFile C (u16 "audios/intro_0.wav") w = (inr wav0, w1) ->
      readFile C (u16 "audios/intro_0.json") w1 = (inr json0, w2) ->
      parse (utf8 C json0) = Some lipsync0 ->
      readFile C (u16 "audios/intro_1.wav") w2 = (inr wav1, w3) ->
      readFile C (u16 "audios/intro_1.json") w3 = (inr json1, w4) ->
      parse (utf8 C json1) = Some lipsync1 ->
      post_chat C cfg req_body w
      = (Ok (Response 200
               (Messages
                  (JArr
                     [JObj [(u16 "text",
                             JStr (u16 "Hey dear... How was your day?"));
                            (u16 "audio", JStr (Base64.encode wav0));
                            (u16 "lipsync", lipsync0);
                            (u16 "facialExpression", JStr (u16 "smile"));
                            (u16 "animation", JStr (u16 "Talking_1"))];
                      JObj [(u16 "text",
                             JStr (u16 "I missed you so much... Please don't go for so long!"));
                            (u16 "audio", JStr (Base64.encode wav1));
                            (u16 "lipsync", lipsync1);
                            (u16 "facialExpression", JStr (u16 "sad"));
                            (u16 "animation", JStr (u16 "Crying"))]]))),
         Store w4
           [EvRead (u16 "audios/intro_0.wav");
            EvRead (u16 "audios/intro_0.json");
            EvRead (u16 "audios/intro_1.wav");
            EvRead (u16 "audios/intro_1.json")]
           JNull).
Proof.
  exact (greeting_turn C cfg req_body w).
Qed.

Lemma greeting_on_missing_message_witness :
  forallb is_read
    (calls (snd (post_chat
                   (fixed_world (inr one_fragment_reply) (inr tt) succeeds
                      disk_of_objects)
                   both_keys (JObj [(u16 "message", JStr [])]) tt))) = true
  /\ post_chat
       (fixed_world (inr one_fragment_reply) (inr tt) succeeds
          disk_of_objects)
       both_keys (JObj [(u16 "message", JStr [])]) tt
     = (Ok (Response 200
              (Messages
                 (JArr
                    [JObj [(u16 "text",
                            JStr (u16 "Hey dear... How was your day?"));
                           (u16 "audio", JStr (u16 "e30="));
                           (u16 "lipsync", JObj []);
                           (u16 "facialExpression", JStr (u16 "smile"));
                           (u16 "animation", JStr (u16 "Talking_1"))];
                     JObj [(u16 "text",
                            JStr (u16 "I missed you so much... Please don't go for so long!"));
                           (u16 "audio", JStr (u16 "e30="));
                           (u16 "lipsync", JObj []);
                           (u16 "facialExpression", JStr (u16 "sad"));
                           (u16 "animation", JStr (u16 "Crying"))]]))),
        Store tt
          [EvRead (u16 "audios/intro_0.wav");
           EvRead (u16 "audios/intro_0.json");
           EvRead (u16 "audios/intro_1.wav");
           EvRead (u16 "audios/intro_1.json")]
          JNull).
Proof.
  destruct (greeting_on_missing_message
              (fixed_world (inr one_fragment_reply) (inr tt) succeeds
                 disk_of_objects)
              both_keys (JObj [(u16 "message", JStr [])]) tt)
    as [only_reads sends]; [discriminate | reflexivity |].
  split; [exact only_reads |].
  apply (sends (u16 "{}") (u16 "{}") (u16 "{}") (u16 "{}") tt tt tt tt
           (JObj []) (JObj []));
    reflexivity.
Defined.

(** C2, at the input where it fails: with the ElevenLabs key set and
    the Gemini key absent from the environment, line 125 does not see
    a missing key, and a turn with a message calls the language model
    and runs the pipeline instead of sending the canned pair. *)
Theorem unset_gemini_key_reaches_the_model :
  keys_missing gemini_key_unset = false
  /\ genAI_key gemini_key_unset = u16 "-"
  /\ hd_error
       (calls (snd (post_chat
                      (fixed_world (inr one_fragment_reply) (inr tt) succeeds
                         disk_of_objects)
                      gemini_key_unset (says "hello") tt)))
     = Some (EvGenerate (JStr (u16 "hello")))
  /\ forallb is_read
       (calls (snd (post_chat
                      (fixed_world (inr one_fragment_reply) (inr tt) succeeds
                         disk_of_objects)
                      gemini_key_unset (says "hello") tt)))
     = false.
Proof.
  repeat split; vm_compute; reflexivity.
Qed.

(** C1, at the input where it fails: synthesis, both commands and the
    read of the audio succeed, the transcript that comes back is not
    JSON; the fragment is sent with [audio] and without [lipsync]. *)
Theorem unreadable_transcript_leaves_audio :
  exists members : list (jsstr * json),
    fst (post_chat
           (fixed_world (inr one_fragment_reply) (inr tt) succeeds
              disk_with_empty_transcripts)
           both_keys (says "hello") tt)
    = Ok (Response 200 (Messages (JArr [JObj members])))
    /\ lookup (u16 "text") members = Some (JStr (u16 "hi"))
    /\ lookup (u16 "audio") members = Some (JStr (u16 "e30="))
    /\ lookup (u16 "lipsync") members = None.
Proof.
  eexists. split; [vm_compute; reflexivity |].
  repeat split; reflexivity.
Qed.

(** ** Code fences *)

Module ReplaceFacts.
Import Replace.

Lemma remove_first_eq (p s : jsstr) :
  remove_first p s
  = match after p s with
    | Some r => optional_lf r
    | None =>
        match s with
        | [] => []
        | c :: s' => c :: remove_first p s'
        end
    end.
Proof. destruct s; reflexivity. Qed.

Lemma occurs_eq (p s : jsstr) :
  occurs p s
  = match after p s with
    | Some _ => true
    | None =>
        match s with
        | [] => false
        | _ :: s' => occurs p s'
        end
    end.
Proof. destruct s; reflexivity. Qed.

Lemma after_app (p r : jsstr) : after p (p ++ r) = Some r.
Proof.
  induction p as [| x p IH]; cbn.
  - now destruct r.
  - now rewrite N.eqb_refl.
Qed.

Lemma remove_first_absent (p s : jsstr) :
  occurs p s = false -> remove_first p s = s.
Proof.
  induction s as [| c s IH]; intro H;
    rewrite occurs_eq in H; rewrite remove_first_eq;
    destruct (after p _); try discriminate H; trivial.
  now rewrite IH.
Qed.

Lemma occurs_tail (p : jsstr) (c : N) (s : jsstr) :
  occurs p (c :: s) = false -> occurs p s = false.
Proof.
  intro H. rewrite occurs_eq in H.
  now destruct (after p (c :: s)).
Qed.

Lemma occurs_head (p : jsstr) (c : N) (s : jsstr) :
  occurs p (c :: s) = false -> after p (c :: s) = None.
Proof.
  intro H. rewrite occurs_eq in H.
  now destruct (after p (c :: s)).
Qed.

Lemma after_app_pattern (p q s : jsstr) :
  after (p ++ q) s
  = match after p s with
    | Some r => after q r
    | None => None
    end.
Proof.
  revert s. induction p as [| x p IH]; intro s; cbn [app after].
  - now destruct q, s.
  - destruct s as [| y s]; [reflexivity |].
    destruct (x =? y); [apply IH | reflexivity].
Qed.

(** The longer fence starts with the shorter one. *)
Lemma fence_json_absent (s : jsstr) :
  occurs fence s = false -> occurs fence_json s = false.
Proof.
  induction s as [| c s IH]; intro H; [reflexivity |].
  rewrite occurs_eq.
  assert (A : after fence_json (c :: s) = None).
  { change fence_json with (fence ++ u16 "json").
    rewrite after_app_pattern.
    now rewrite (occurs_head _ _ _ H). }
  rewrite A. apply IH. now apply occurs_tail in H.
Qed.

Lemma strip_fences_absent (s : jsstr) :
  occurs fence s = false -> strip_fences s = s.
Proof.
  intro H. unfold strip_fences.
  rewrite (remove_first_absent fence_json) by now apply fence_json_absent.
  now apply remove_first_absent.
Qed.

Lemma after_fence (s : jsstr) :
  after fence s
  = match s with
    | a :: b :: c :: r =>
        if (96 =? a) && (96 =? b) && (96 =? c) then Some r else None
    | _ => None
    end.
Proof.
  change fence with [96; 96; 96].
  destruct s as [| a [| b [| c r]]]; cbn [after];
    repeat (destruct (96 =? _); cbn [andb]; trivial); reflexivity.
Qed.

Ltac backticks :=
  repeat match goal with
    | H : context [96 =? ?a] |- _ => destruct (N.eqb_spec 96 a); subst
    | |- context [96 =? ?a] => destruct (N.eqb_spec 96 a); subst
    end;
  cbn [andb optional_lf] in *.

(** The closing fence directly after [s]: the leftmost run of three
    backticks may start inside a tail of backticks of [s], and what
    is left is [s] all the same. *)
Lemma remove_closing_fence (s : jsstr) :
  occurs fence s = false -> remove_first fence (s ++ fence) = s.
Proof.
  induction s as [| c s IH]; intro H; [reflexivity |].
  pose proof (occurs_head _ _ _ H) as A.
  pose proof (occurs_tail _ _ _ H) as T.
  specialize (IH T).
  rewrite remove_first_eq. cbn [app]. rewrite IH.
  rewrite after_fence in A |- *.
  change fence with [96; 96; 96].
  destruct s as [| a [| b s]]; cbn [app] in A |- *; backticks;
    try reflexivity; try discriminate A; congruence.
Qed.

(** A line feed between [s] and the closing fence stays. *)
Lemma remove_closing_fence_lf (s : jsstr) :
  occurs fence s = false ->
  remove_first fence (s ++ LF :: fence) = s ++ [LF].
Proof.
  induction s as [| c s IH]; intro H; [reflexivity |].
  pose proof (occurs_head _ _ _ H) as A.
  pose proof (occurs_tail _ _ _ H) as T.
  specialize (IH T).
  rewrite remove_first_eq. cbn [app]. rewrite IH.
  rewrite after_fence in A |- *.
  change fence with [96; 96; 96].
  destruct s as [| a [| b s]]; cbn [app] in A |- *; backticks;
    try reflexivity; try discriminate A; try congruence;
    match goal with E : 96 = LF |- _ => discriminate E end.
Qed.

End ReplaceFacts.

(** ** White space around a JSON text *)

Module JsonFacts.
Import Replace.

Ltac branches H :=
  repeat match type of H with
    | context [if ?b then _ else _] => destruct b eqn:?
    | context [match digit ?c with _ => _ end] =>
        destruct (digit c) as [[| ?] |] eqn:?
    | context [match hex ?c with _ => _ end] => destruct (hex c) eqn:?
    end.

Lemma idle_keyword_ok (c : N) (st : lstate) (ts : list token) :
  idle c = Some (st, ts) -> keyword_ok st = true.
Proof.
  unfold idle. intro H. branches H; inversion H; reflexivity.
Qed.

Lemma close_then_keyword_ok (st0 : lstate) (c : N) (st : lstate)
    (ts : list token) :
  close_then st0 c = Some (st, ts) -> keyword_ok st = true.
Proof.
  unfold close_then. intro H.
  destruct (close st0); [| discriminate H].
  destruct (idle c) as [[st1 ts1] |] eqn:I; [| discriminate H].
  inversion H; subst. exact (idle_keyword_ok _ _ _ I).
Qed.

Lemma lstep_keyword_ok (st : lstate) (c : N) (st' : lstate)
    (ts : list token) :
  keyword_ok st = true ->
  lstep st c = Some (st', ts) -> keyword_ok st' = true.
Proof.
  intros K H.
  destruct st; cbn [lstep] in H;
    try (branches H;
         first [discriminate H
               | now apply close_then_keyword_ok in H
               | now apply idle_keyword_ok in H
               | inversion H; reflexivity]).
  - destruct rest as [| x rest]; [discriminate H |].
    destruct (c =? x); [| discriminate H].
    destruct rest as [| y rest]; inversion H; subst; [reflexivity |].
    cbn [keyword_ok existsb] in K |- *.
    now destruct (LF =? x).
  - destruct (hex c); [| discriminate H].
    destruct ds as [| d1 [| d2 [| d3 [| d4 ds]]]]; inversion H; reflexivity.
Qed.

Lemma lrun_keyword_ok (s : jsstr) (st : lstate) (out : list token)
    (st' : lstate) (out' : list token) :
  keyword_ok st = true ->
  lrun st out s = Some (st', out') -> keyword_ok st' = true.
Proof.
  revert st out. induction s as [| c s IH]; intros st out K H; cbn in H.
  - now inversion H; subst.
  - destruct (lstep st c) as [[st1 ts] |] eqn:E; [| discriminate H].
    exact (IH _ _ (lstep_keyword_ok _ _ _ _ K E) H).
Qed.

Lemma lrun_app (s t : jsstr) (st : lstate) (out : list token) :
  lrun st out (s ++ t)
  = match lrun st out s with
    | Some (st', out') => lrun st' out' t
    | None => None
    end.
Proof.
  revert st out. induction s as [| c s IH]; intros st out; cbn.
  - reflexivity.
  - destruct (lstep st c) as [[st1 ts] |]; [apply IH | reflexivity].
Qed.

(** At a line feed, whatever lexeme can end ends, and nothing else
    comes of it. *)
Lemma lstep_lf (st : lstate) (out : list token) :
  keyword_ok st = true ->
  match lstep st LF with
  | Some (st', ts) => option_map (app (out ++ ts)) (close st')
  | None => None
  end
  = option_map (app out) (close st).
Proof.
  intro K.
  destruct st; try (cbn; rewrite ?app_nil_r, <- ?app_assoc; reflexivity).
  destruct rest as [| x rest]; [reflexivity |].
  cbn [keyword_ok existsb] in K. cbn [lstep].
  destruct (LF =? x); [discriminate K | reflexivity].
Qed.

Lemma lex_eq (s : jsstr) :
  lex s
  = match lrun LIdle [] s with
    | Some (st, out) => option_map (app out) (close st)
    | None => None
    end.
Proof. reflexivity. Qed.

Lemma lex_snoc_lf (s : jsstr) : lex (s ++ [LF]) = lex s.
Proof.
  rewrite !lex_eq, lrun_app.
  destruct (lrun LIdle [] s) as [[st out] |] eqn:E; [| reflexivity].
  apply lrun_keyword_ok in E; [| reflexivity].
  cbn [lrun]. rewrite <- (lstep_lf st out E).
  now destruct (lstep st LF) as [[st' ts] |].
Qed.

Lemma parse_snoc_lf (s : jsstr) : parse (s ++ [LF]) = parse s.
Proof. unfold parse. now rewrite lex_snoc_lf. Qed.

Lemma parse_cons_lf (s : jsstr) : parse (LF :: s) = parse s.
Proof. reflexivity. Qed.

End JsonFacts.

Lemma strip_fenced (lf_open lf_close : bool) (s : jsstr) :
  Replace.occurs fence s = false ->
  strip_fences (fenced lf_open lf_close s)
  = (if lf_open then s else Replace.optional_lf s)
      ++ (if lf_close then
            match lf_open, s with
            | false, [] => []
            | _, _ => [Replace.LF]
            end
          else []).
Proof.
  intro H. unfold strip_fences, fenced.
  rewrite (ReplaceFacts.remove_first_eq fence_json), ReplaceFacts.after_app.
  assert (T : forall r, Replace.occurs fence r = false ->
                        Replace.remove_first fence
                          (r ++ (if lf_close then [Replace.LF] else []) ++ fence)
                        = r ++ (if lf_close then [Replace.LF] else [])).
  { intros r Hr. destruct lf_close; cbn [app].
    - now apply ReplaceFacts.remove_closing_fence_lf.
    - rewrite app_nil_r. now apply ReplaceFacts.remove_closing_fence. }
  destruct lf_open; cbn [app].
  - change (Replace.optional_lf (Replace.LF :: ?r)) with r.
    rewrite T by assumption. now destruct lf_close.
  - destruct s as [| c s]; cbn [app].
    + destruct lf_close; reflexivity.
    + cbn [Replace.optional_lf].
      destruct (c =? Replace.LF).
      * rewrite T by exact (ReplaceFacts.occurs_tail _ _ _ H).
        now destruct lf_close.
      * rewrite app_comm_cons, (T (c :: s)) by assumption.
        now destruct lf_close.
Qed.

(** X2: fences round-trip on replies without backticks: for every
    reply [s] in which three backticks in a row do not occur, stripping and
    parsing [s] inside a code fence
    (with or without a line feed after the opening fence and before
    the closing one) gives what stripping and parsing [s] itself
    gives, and stripping leaves [s] itself alone. *)
Lemma fenced_reply_parses_alike (lf_open lf_close : bool) (s : jsstr) :
  Replace.occurs fence s = false ->
  parse (strip_fences (fenced lf_open lf_close s)) = parse (strip_fences s)
  /\ strip_fences s = s.
Proof.
  intro H. pose proof (ReplaceFacts.strip_fences_absent s H) as S.
  split; [| exact S]. rewrite S, strip_fenced by assumption.
  destruct lf_open.
  - destruct lf_close; [apply JsonFacts.parse_snoc_lf | now rewrite app_nil_r].
  - destruct s as [| c s]; [now destruct lf_close |].
    cbn [Replace.optional_lf].
    destruct (N.eqb_spec c Replace.LF) as [-> |].
    + rewrite JsonFacts.parse_cons_lf.
      destruct lf_close;
        [apply JsonFacts.parse_snoc_lf | now rewrite app_nil_r].
    + destruct lf_close;
        [apply JsonFacts.parse_snoc_lf | now rewrite app_nil_r].
Qed.

Lemma fenced_reply_parses_alike_witness :
  parse (strip_fences (fenced true true one_fragment_reply))
  = parse (strip_fences one_fragment_reply)
  /\ strip_fences one_fragment_reply = one_fragment_reply.
Proof.
  apply (fenced_reply_parses_alike true true one_fragment_reply).
  reflexivity.
Defined.

(** C4, at the input where it fails: the reply [[{"text":"```"}]] is
    valid JSON.  Without a fence, stripping removes the backticks of
    the text and the rest parses, to a fragment with an empty text;
    inside a fence, the second replacement takes the backticks of the
    text for the closing fence, the closing fence itself stays, and
    the parse fails. *)
Theorem fenced_backticks_reply_differs :
  parse backticks_reply = Some (JArr [JObj [(u16 "text", JStr (u16 "```"))]])
  /\ parse (strip_fences backticks_reply)
     = Some (JArr [JObj [(u16 "text", JStr [])]])
  /\ parse (strip_fences (fenced true true backticks_reply)) = None
  /\ parse (strip_fences (fenced false false backticks_reply)) = None.
Proof.
  repeat split; vm_compute; reflexivity.
Qed.

(** ** The fragment loop *)

Section Loop.

Context {W : Type} (C : collaborators W).

Lemma store_eta (s : store W) :
  s = Store (world s) (calls s ++ []) (messages s).
Proof. destruct s. cbn. now rewrite app_nil_r. Qed.

Lemma framed_ret {A} (a : A) : framed (ret a : M W A).
Proof.
  intro s. exists (Ok a), (world s), []. split; [| discriminate].
  unfold ret. now rewrite <- store_eta.
Qed.

Lemma framed_throw {A} (e : exn) : framed (throw e : M W A).
Proof.
  intro s. exists (Throw e), (world s), []. split; [| discriminate].
  unfold throw. now rewrite <- store_eta.
Qed.

Lemma framed_bind {A B} (c : M W A) (k : A -> M W B) :
  framed c -> (forall a, framed (k a)) -> framed (bind c k).
Proof.
  intros Fc Fk s. destruct (Fc s) as (r & w1 & evs & E & NB).
  unfold bind. rewrite E. destruct r as [a | e | g].
  - destruct (Fk a (Store w1 (calls s ++ evs) (messages s)))
      as (r2 & w2 & evs2 & E2 & NB2).
    exists r2, w2, (evs ++ evs2). rewrite E2. cbn [calls messages].
    now rewrite app_assoc.
  - exists (Throw e), w1, evs. split; [reflexivity | discriminate].
  - now destruct (NB g).
Qed.

Lemma framed_try_catch {A} (c : M W A) (h : exn -> M W A) :
  framed c -> (forall e, framed (h e)) -> framed (try_catch c h).
Proof.
  intros Fc Fh s. destruct (Fc s) as (r & w1 & evs & E & NB).
  unfold try_catch. rewrite E. destruct r as [a | e | g].
  - exists (Ok a), w1, evs. split; [reflexivity | discriminate].
  - destruct (Fh e (Store w1 (calls s ++ evs) (messages s)))
      as (r2 & w2 & evs2 & E2 & NB2).
    exists r2, w2, (evs ++ evs2). rewrite E2. cbn [calls messages].
    now rewrite app_assoc.
  - now destruct (NB g).
Qed.

Lemma lift_returns {A} (r : exn + A) (g : gap) : lift r <> Beyond g.
Proof. destruct r; discriminate. Qed.

Lemma framed_fs_readFile (file : jsstr) : framed (fs_readFile C file).
Proof.
  intro s. unfold fs_readFile.
  destruct (readFile C file (world s)) as [r w1].
  exists (lift r), w1, [EvRead file].
  split; [reflexivity | apply lift_returns].
Qed.

Lemma framed_JSON_parse (text : jsstr) : framed (JSON_parse text : M W json).
Proof.
  unfold JSON_parse.
  destruct (parse text); [apply framed_ret | apply framed_throw].
Qed.

Lemma framed_readJsonTranscript (file : jsstr) :
  framed (readJsonTranscript C file).
Proof.
  apply framed_bind; [apply framed_fs_readFile |].
  intro data. apply framed_JSON_parse.
Qed.

Lemma framed_audioFileToBase64 (file : jsstr) :
  framed (audioFileToBase64 C file).
Proof.
  apply framed_bind; [apply framed_fs_readFile |].
  intro data. apply framed_ret.
Qed.

(** The promise of [execCommand] is settled when it is awaited. *)
Lemma framed_execCommand (command : jsstr) : framed (execCommand C command).
Proof.
  intro s. unfold execCommand.
  destruct (exec C command (world s)) as [p w1].
  rewrite execCommand_promise_settled.
  destruct (exec_error command p) as [error |].
  - exists (Throw error), w1, [EvExec command].
    split; [reflexivity | discriminate].
  - exists (Ok (stdout p)), w1, [EvExec command].
    split; [reflexivity | discriminate].
Qed.

Lemma framed_lipSyncMessage (i : nat) : framed (lipSyncMessage C i).
Proof.
  apply framed_try_catch; [| intro e; apply framed_throw].
  apply framed_bind; [apply framed_execCommand | intros _].
  apply framed_bind; [apply framed_execCommand | intros _].
  apply framed_ret.
Qed.

Lemma index_at (pre : list json) (m : json) (post : list json) :
  index (JArr (pre ++ m :: post)) (List.length pre) = Some m.
Proof.
  cbn [index]. rewrite nth_error_app2 by apply Nat.le_refl.
  now rewrite Nat.sub_diag.
Qed.

Lemma assign_at (pre : list json) (members : list (jsstr * json))
    (post : list json) (k : jsstr) (v : json) :
  assign (List.length pre) k v (JArr (pre ++ JObj members :: post))
  = Some (JArr (pre ++ JObj (obj_set k v members) :: post)).
Proof.
  unfold assign.
  rewrite nth_error_app2 by apply Nat.le_refl. rewrite Nat.sub_diag.
  cbn [nth_error].
  rewrite firstn_app, firstn_all, Nat.sub_diag. cbn [firstn].
  rewrite app_nil_r.
  replace (S (List.length pre)) with (List.length pre + 1)%nat
    by apply Nat.add_1_r.
  rewrite skipn_app, skipn_all2 by (apply Nat.le_add_r).
  replace (List.length pre + 1 - List.length pre)%nat with 1%nat
    by (rewrite Nat.add_comm; now rewrite Nat.add_sub).
  reflexivity.
Qed.

End Loop.

Section Iteration.

Context {W : Type} (C : collaborators W) (cfg : config).
Variables (pre post : list json).

(** Lines 190-200 for a fragment that is an object: the first call
    is the synthesis of its text; only the fragment itself can
    change, and only by [audio], then [lipsync]. *)
Lemma media_steps (members : list (jsstr * json)) (text : jsstr)
    (s : store W) :
  messages s = JArr (pre ++ JObj members :: post) ->
  exists (r : result unit) (m' : json) (w1 : W) (evs : list event),
    media_pipeline C cfg (List.length pre) text s
    = (r, Store w1
            (calls s
               ++ EvSpeech (message_file (List.length pre) ".mp3") text
               :: evs)
            (JArr (pre ++ m' :: post)))
    /\ emitted (JObj members) m'
    /\ forall g, r <> Beyond g.
Proof.
  intro H. unfold media_pipeline, bind at 1, voice_textToSpeech.
  destruct (textToSpeech C (elevenLabsApiKey cfg) voiceID
              (message_file (List.length pre) ".mp3") text (world s))
    as [[e | []] w1]; cbn [lift].
  { exists (Throw e), (JObj members), w1, [].
    unfold record. rewrite H.
    split; [reflexivity | split; [constructor | discriminate]]. }
  set (s1 := record (EvSpeech (message_file (List.length pre) ".mp3") text)
               w1 s).
  assert (H1 : messages s1 = JArr (pre ++ JObj members :: post)) by exact H.
  assert (C1 : calls s1
               = calls s
                   ++ [EvSpeech (message_file (List.length pre) ".mp3") text])
    by reflexivity.
  clearbody s1. unfold bind at 1.
  destruct (framed_lipSyncMessage C (List.length pre) s1)
    as (r2 & w2 & evs2 & E2 & NB2).
  rewrite E2, H1, C1. clear E2.
  destruct r2 as [[] | e | g]; [| | now destruct (NB2 g)].
  2:{ exists (Throw e), (JObj members), w2, evs2.
      rewrite <- app_assoc.
      split; [reflexivity | split; [constructor | discriminate]]. }
  unfold bind at 1.
  match goal with
  | |- context [audioFileToBase64 C ?f ?s2] =>
      destruct (framed_audioFileToBase64 C f s2)
        as (r3 & w3 & evs3 & E3 & NB3)
  end.
  rewrite E3. clear E3. cbn [calls messages].
  destruct r3 as [audio | e | g]; [| | now destruct (NB3 g)].
  2:{ exists (Throw e), (JObj members), w3, (evs2 ++ evs3).
      rewrite <- !app_assoc.
      split; [reflexivity | split; [constructor | discriminate]]. }
  unfold bind at 1, assign_field at 1. cbn [calls messages world].
  rewrite (assign_at pre members post).
  unfold bind at 1.
  match goal with
  | |- context [readJsonTranscript C ?f ?s4] =>
      destruct (framed_readJsonTranscript C f s4)
        as (r4 & w4 & evs4 & E4 & NB4)
  end.
  rewrite E4. clear E4. cbn [calls messages].
  destruct r4 as [lipsync | e | g]; [| | now destruct (NB4 g)].
  2:{ exists (Throw e),
        (JObj (obj_set (u16 "audio") (JStr audio) members)),
        w4, (evs2 ++ evs3 ++ evs4).
      rewrite <- !app_assoc.
      split; [reflexivity | split; [now constructor | discriminate]]. }
  unfold assign_field. cbn [calls messages world].
  rewrite (assign_at pre _ post).
  exists (Ok tt),
    (JObj (obj_set (u16 "lipsync") lipsync
             (obj_set (u16 "audio") (JStr audio) members))),
    w4, (evs2 ++ evs3 ++ evs4).
  rewrite <- !app_assoc.
  split; [reflexivity | split; [now constructor | discriminate]].
Qed.

End Iteration.

Section FragmentLoop.

Context {W : Type} (C : collaborators W) (cfg : config).

(** One turn of the loop on the fragment [m] at index [length pre]. *)
Lemma iteration_spec (pre : list json) (m : json) (post : list json)
    (s : store W) :
  messages s = JArr (pre ++ m :: post) ->
  exists (r : result unit) (m' : json) (w1 : W) (evs : list event),
    iteration C cfg (List.length pre) s
    = (r, Store w1 (calls s ++ evs) (JArr (pre ++ m' :: post)))
    /\ emitted m m'
    /\ (r = Ok tt \/ (r = Throw TypeError /\ m = JNull))
    /\ (forall t, field m (u16 "text") = Some (JStr t) ->
          hd_error evs
          = Some (EvSpeech (message_file (List.length pre) ".mp3") t))
    /\ ((forall t, field m (u16 "text") <> Some (JStr t)) -> m' = m).
Proof.
  intro H. unfold iteration, bind at 1, get_messages.
  rewrite H, index_at. unfold get_field_opt, get_field.
  remember (field m (u16 "text")) as textInput eqn:F.
  destruct (match m with JNull => true | _ => false end) eqn:Null.
  { (* null: [message.text] throws before the [try] *)
    destruct m; try discriminate Null.
    exists (Throw TypeError), JNull, (world s), [].
    unfold bind, throw. rewrite <- H, <- store_eta.
    split; [reflexivity |]. split; [constructor |].
    split; [now right |]. split; [subst; discriminate | trivial]. }
  assert (G : (match m with
               | JNull => throw TypeError
               | _ => ret textInput
               end : M W (option json)) s = (Ok textInput, s)).
  { destruct m; try reflexivity. discriminate Null. }
  unfold bind at 1. rewrite G. clear G.
  unfold try_catch, bind at 1.
  destruct textInput as [[| b | n | t | items | members'] |];
    try (exists (Ok tt), m, (world s), [];
         cbn [substring_receiver throw]; unfold ret;
         rewrite <- H, <- store_eta;
         split; [reflexivity |]; split; [constructor |];
         split; [now left |]; split; [discriminate | trivial]).
  destruct m as [| | | | | members]; try discriminate F.
  cbn [substring_receiver ret].
  destruct (media_steps C cfg pre post members t s H)
    as (r & m' & w1 & evs & E & Em & NB).
  rewrite E.
  exists (Ok tt), m', w1,
    (EvSpeech (message_file (List.length pre) ".mp3") t :: evs).
  split; [destruct r as [[] | e | g]; try reflexivity; now destruct (NB g) |].
  split; [exact Em |]. split; [now left |].
  split.
  - intros t' Ft. now inversion Ft.
  - intro NS. now destruct (NS t).
Qed.

(** The loop over the fragments [post] that follow [pre]. *)
Lemma loop_spec (post pre : list json) (s : store W) :
  messages s = JArr (pre ++ post) ->
  exists (r : result unit) (post' : list json) (w1 : W)
         (evs : list event),
    loop C cfg (List.length post) (List.length pre) s
    = (r, Store w1 (calls s ++ evs) (JArr (pre ++ post')))
    /\ Forall2 emitted post post'
    /\ (r = Ok tt \/ (r = Throw TypeError /\ In JNull post))
    /\ (r = Ok tt ->
        forall j m t,
          nth_error post j = Some m ->
          field m (u16 "text") = Some (JStr t) ->
          In (EvSpeech (message_file (List.length pre + j) ".mp3") t) evs)
    /\ (forall j m,
          nth_error post j = Some m ->
          (forall t, field m (u16 "text") <> Some (JStr t)) ->
          nth_error post' j = Some m).
Proof.
  revert pre s. induction post as [| m post IH]; intros pre s H.
  - exists (Ok tt), [], (world s), []. cbn [loop List.length].
    unfold ret. rewrite <- H, <- store_eta.
    split; [reflexivity |]. split; [constructor |].
    split; [now left |]. split.
    + intros _ [| j] ? ? X; discriminate X.
    + intros [| j] ? X; discriminate X.
  - cbn [loop List.length]. unfold bind at 1.
    destruct (iteration_spec pre m post s H)
      as (r1 & m' & w1 & evs1 & E1 & Em & R1 & S1 & K1).
    rewrite E1.
    destruct R1 as [-> | [-> ->]].
    + set (s1 := Store w1 (calls s ++ evs1) (JArr (pre ++ m' :: post))).
      assert (H1 : messages s1 = JArr ((pre ++ [m']) ++ post)).
      { cbn. now rewrite <- app_assoc. }
      destruct (IH (pre ++ [m']) s1 H1)
        as (r2 & post' & w2 & evs2 & E2 & F2 & R2 & S2 & K2).
      rewrite length_app, Nat.add_1_r in E2, S2.
      exists r2, (m' :: post'), w2, (evs1 ++ evs2).
      rewrite E2. cbn [calls s1].
      rewrite <- !app_assoc. cbn [app].
      split; [reflexivity |].
      split; [now constructor |].
      split; [destruct R2 as [-> | [-> I]];
              [now left | right; split; [reflexivity | now right]] |].
      split.
      * intros Hr [| j] m0 t N0 F0.
        -- cbn in N0. inversion N0; subst.
           rewrite Nat.add_0_r. apply in_or_app. left.
           specialize (S1 t F0).
           destruct evs1; [discriminate S1 | inversion S1; now left].
        -- apply in_or_app. right.
           rewrite Nat.add_succ_r. exact (S2 Hr j m0 t N0 F0).
      * intros [| j] m0 N0 F0.
        -- cbn in N0. inversion N0; subst. cbn. now rewrite (K1 F0).
        -- exact (K2 j m0 N0 F0).
    + exists (Throw TypeError), (m' :: post), w1, evs1.
      split; [reflexivity |].
      split; [constructor; [exact Em | ] |].
      { clear. induction post; constructor; [constructor | assumption]. }
      split; [right; split; [reflexivity | now left] |].
      split; [intro X; discriminate X |].
      intros [| j] m0 N0 F0.
      * cbn in N0. inversion N0; subst. cbn. now rewrite (K1 F0).
      * exact N0.
Qed.

End FragmentLoop.

(** ** From the parsed reply to the response *)

Section Reply.

Context {W : Type} (C : collaborators W) (cfg : config).

Lemma unwrap_list (parsed : json) (L : list json) (s : store W) :
  parsed = JArr L \/ field parsed (u16 "messages") = Some (JArr L) ->
  unwrap parsed s = (Ok (JArr L), s).
Proof.
  intros [-> | F]; [reflexivity |].
  destruct parsed; try discriminate F.
  unfold unwrap, bind, get_field. cbn [ret]. now rewrite F.
Qed.

(** Lines 178-232 on a reply that holds the list [L]. *)
Lemma process_reply_spec (parsed : json) (L : list json) (s : store W) :
  parsed = JArr L \/ field parsed (u16 "messages") = Some (JArr L) ->
  exists (r : result response) (L' : list json) (w1 : W)
         (evs : list event),
    process_reply C cfg parsed s
    = (r, Store w1 (calls s ++ evs) (JArr L'))
    /\ Forall2 emitted L L'
    /\ (r = Ok (Response 200 (Messages (JArr L')))
        \/ (r = Throw TypeError /\ In JNull L))
    /\ (r = Ok (Response 200 (Messages (JArr L'))) ->
        forall j m t,
          nth_error L j = Some m ->
          field m (u16 "text") = Some (JStr t) ->
          In (EvSpeech (message_file j ".mp3") t) evs)
    /\ (forall j m,
          nth_error L j = Some m ->
          (forall t, field m (u16 "text") <> Some (JStr t)) ->
          nth_error L' j = Some m).
Proof.
  intro Shape. unfold process_reply, bind at 1.
  rewrite (unwrap_list parsed L s Shape).
  unfold bind at 1, set_messages. cbn [length_of].
  set (s0 := Store (world s) (calls s) (JArr L)).
  destruct (loop_spec C cfg L [] s0 eq_refl)
    as (r & L' & w1 & evs & E & F2 & R & S & K).
  cbn [List.length app] in E. unfold bind at 1. rewrite E.
  exists (match r with
          | Ok _ => Ok (Response 200 (Messages (JArr L')))
          | Throw e => Throw e
          | Beyond g => Beyond g
          end), L', w1, evs.
  destruct R as [-> | [-> I]].
  - split; [reflexivity |]. split; [exact F2 |].
    split; [now left |]. split; [| exact K].
    intros _ j m t. exact (S eq_refl j m t).
  - split; [reflexivity |]. split; [exact F2 |].
    split; [now right |]. split; [discriminate | exact K].
Qed.

Lemma canned_shape (a0 a1 : string)
    (reply : jsstr -> json -> jsstr -> json -> json)
    (s s' : store W) (r : response) :
  canned C a0 a1 reply s = (Ok r, s') ->
  exists audio0 lipsync0 audio1 lipsync1,
    r = Response 200 (Messages (reply audio0 lipsync0 audio1 lipsync1)).
Proof.
  unfold canned. unfold bind at 1.
  destruct (audioFileToBase64 C _ s) as [[audio0 | e | g] s1];
    try discriminate.
  unfold bind at 1.
  destruct (readJsonTranscript C _ s1) as [[lipsync0 | e | g] s2];
    try discriminate.
  unfold bind at 1.
  destruct (audioFileToBase64 C _ s2) as [[audio1 | e | g] s3];
    try discriminate.
  unfold bind at 1.
  destruct (readJsonTranscript C _ s3) as [[lipsync1 | e | g] s4];
    try discriminate.
  intro H. inversion H. now exists audio0, lipsync0, audio1, lipsync1.
Qed.

End Reply.


(** * Further properties *)

(** ** The lip-sync stage *)

(** The two commands of [lipSyncMessage], resolved. *)
Lemma lipSyncMessage_runs
    {W : Type} (C : collaborators W) (i : nat) (s : store W) :
  lipSyncMessage C i s
  = let '(p1, w1) := exec C (ffmpeg_command i) (world s) in
    match exec_error (ffmpeg_command i) p1 with
    | Some error =>
        (Throw error,
         Store w1 (calls s ++ [EvExec (ffmpeg_command i)]) (messages s))
    | None =>
        let '(p2, w2) := exec C (rhubarb_command i) w1 in
        (match exec_error (rhubarb_command i) p2 with
         | Some error => Throw error
         | None => Ok tt
         end,
         Store w2
           (calls s ++ [EvExec (ffmpeg_command i); EvExec (rhubarb_command i)])
           (messages s))
    end.
Proof.
  unfold lipSyncMessage, try_catch, bind at 1, execCommand at 1.
  destruct (exec C (ffmpeg_command i) (world s)) as [p1 w1].
  rewrite execCommand_promise_settled.
  destruct (exec_error (ffmpeg_command i) p1) as [error |]; [reflexivity |].
  cbn [await ret]. unfold bind at 1, execCommand, record.
  cbn [world calls messages].
  destruct (exec C (rhubarb_command i) w1) as [p2 w2].
  rewrite execCommand_promise_settled.
  rewrite <- app_assoc. cbn [app].
  destruct (exec_error (rhubarb_command i) p2) as [error |]; reflexivity.
Qed.


(** ** Request-level failures *)

Section RequestFailures.

Context {W : Type} (C : collaborators W).
Variables (cfg : config) (req_body : json) (w w' : W).

(** X4: when the first asset of the greeting cannot be read, the
    request is answered with status 500, the details are the message
    of the read error, and no other asset is read. *)
Theorem unreadable_greeting_asset_fails_the_request (e : exn) :
  req_body <> JNull ->
  truthy_opt (field req_body (u16 "message")) = false ->
  readFile C (asset "intro_0" ".wav") w = (inl e, w') ->
  post_chat C cfg req_body w
  = (Ok (Response 500
           (Failure (u16 "Failed to process message") (error_message e))),
     Store w' [EvRead (asset "intro_0" ".wav")] JNull).
Proof.
  intros Hb Hm R. unfold post_chat, chat, try_catch.
  rewrite greeting_branch by assumption.
  unfold canned, bind at 1, audioFileToBase64, bind at 1, fs_readFile.
  cbn [world]. rewrite R. reflexivity.
Qed.

Hypothesis message_given :
  truthy_opt (field req_body (u16 "message")) = true.
Hypothesis keys_given : keys_missing cfg = false.

(** X5: when the call of the language model throws, the request is
    answered with status 500, the details are the message of that
    error, and nothing else was called. *)
Theorem model_failure_fails_the_request (e : exn) :
  generateContent C (genAI_key cfg)
    (or_hello (field req_body (u16 "message"))) w = (inl e, w') ->
  post_chat C cfg req_body w
  = (Ok (Response 500
           (Failure (u16 "Failed to process message") (error_message e))),
     Store w' [EvGenerate (or_hello (field req_body (u16 "message")))]
       JNull).
Proof.
  intro G. unfold post_chat, chat, try_catch, chat_try, bind at 1, get_field.
  assert (Hf : (match req_body with
                | JNull => throw TypeError
                | _ => ret (field req_body (u16 "message"))
                end : M W (option json)) (Store w [] JNull)
               = (Ok (field req_body (u16 "message")), Store w [] JNull)).
  { destruct req_body; try reflexivity.
    cbn in message_given. discriminate message_given. }
  rewrite Hf, message_given, keys_given. cbn [negb].
  unfold bind at 1, model_generateContent. cbn [world]. rewrite G.
  reflexivity.
Qed.

(** X6: when the reply of the model is the JSON text [null], reading
    [messages.messages] throws and the request is answered with status
    500; the model call is the only call made. *)
Theorem null_reply_fails_the_request (text : jsstr) :
  generateContent C (genAI_key cfg)
    (or_hello (field req_body (u16 "message"))) w = (inr text, w') ->
  parse (strip_fences text) = Some JNull ->
  post_chat C cfg req_body w
  = (Ok (Response 500
           (Failure (u16 "Failed to process message")
              (Some (EngineText TypeError)))),
     Store w' [EvGenerate (or_hello (field req_body (u16 "message")))]
       JNull).
Proof.
  intros G P. unfold post_chat, chat, try_catch.
  rewrite (normal_turn_parses C cfg req_body w w' text
             message_given keys_given G) by reflexivity.
  unfold bind at 1, JSON_parse. rewrite P. reflexivity.
Qed.

End RequestFailures.

Lemma unreadable_greeting_asset_fails_the_request_witness :
  post_chat (fixed_world (inr one_fragment_reply) (inr tt) succeeds empty_disk)
    both_keys (JObj []) tt
  = (Ok (Response 500
           (Failure (u16 "Failed to process message")
              (Some (Text (u16 "ENOENT"))))),
     Store tt [EvRead (asset "intro_0" ".wav")] JNull).
Proof.
  apply (unreadable_greeting_asset_fails_the_request
           (fixed_world (inr one_fragment_reply) (inr tt) succeeds empty_disk)
           both_keys (JObj []) tt tt (Thrown (Some (u16 "ENOENT"))));
    [discriminate | reflexivity | reflexivity].
Defined.

Lemma model_failure_fails_the_request_witness :
  post_chat (fixed_world (inl quota_exceeded) (inr tt) succeeds disk_of_objects)
    both_keys (says "hello") tt
  = (Ok (Response 500
           (Failure (u16 "Failed to process message")
              (Some (Text (u16 "quota exceeded"))))),
     Store tt [EvGenerate (JStr (u16 "hello"))] JNull).
Proof.
  apply (model_failure_fails_the_request
           (fixed_world (inl quota_exceeded) (inr tt) succeeds disk_of_objects)
           both_keys (says "hello") tt tt)
    with (e := quota_exceeded);
    reflexivity.
Defined.

Lemma null_reply_fails_the_request_witness :
  post_chat (fixed_world (inr null_reply) (inr tt) succeeds disk_of_objects)
    both_keys (says "hello") tt
  = (Ok (Response 500
           (Failure (u16 "Failed to process message")
              (Some (EngineText TypeError)))),
     Store tt [EvGenerate (JStr (u16 "hello"))] JNull).
Proof.
  apply (null_reply_fails_the_request
           (fixed_world (inr null_reply) (inr tt) succeeds disk_of_objects)
           both_keys (says "hello") tt tt)
    with (text := null_reply);
    reflexivity.
Defined.

(** ** Missing keys *)

(** X3: with a message given, an ElevenLabs key that is unset or
    empty, or a Gemini key that is literally ["-"], sends the canned
    pair about the keys, angry with Angry then smile with Laughing,
    built from the [audios/api_0] and [audios/api_1] assets when they
    are readable; the language model and the media pipeline are not
    called, whether the assets are readable or not. *)
Theorem missing_keys_send_the_canned_pair
    {W : Type} (C : collaborators W) (cfg : config) (req_body : json)
    (w : W) :
  truthy_opt (field req_body (u16 "message")) = true ->
  ELEVEN_LABS_API_KEY cfg = None
  \/ ELEVEN_LABS_API_KEY cfg = Some []
  \/ GEMINI_API_KEY cfg = Some (u16 "-") ->
  forallb is_read (calls (snd (post_chat C cfg req_body w))) = true
  /\ forall (wav0 json0 wav1 json1 : list N) (w1 w2 w3 w4 : W)
            (lipsync0 lipsync1 : json),
      readFile C (u16 "audios/api_0.wav") w = (inr wav0, w1) ->
      readFile C (u16 "audios/api_0.json") w1 = (inr json0, w2) ->
      parse (utf8 C json0) = Some lipsync0 ->
      readFile C (u16 "audios/api_1.wav") w2 = (inr wav1, w3) ->
      readFile C (u16 "audios/api_1.json") w3 = (inr json1, w4) ->
      parse (utf8 C json1) = Some lipsync1 ->
      post_chat C cfg req_body w
      = (Ok (Response 200
               (Messages
                  (JArr
                     [JObj [(u16 "text",
                             JStr (u16 "Please my dear, don't forget to add your API keys!"));
                            (u16 "audio", JStr (Base64.encode wav0));
                            (u16 "lipsync", lipsync0);
                            (u16 "facialExpression", JStr (u16 "angry"));
                            (u16 "animation", JStr (u16 "Angry"))];
                      JObj [(u16 "text",
                             JStr (u16 "You don't want to ruin this with a crazy Gemini and ElevenLabs bill, right?"));
                            (u16 "audio", JStr (Base64.encode wav1));
                            (u16 "lipsync", lipsync1);
                            (u16 "facialExpression", JStr (u16 "smile"));
                            (u16 "animation", JStr (u16 "Laughing"))]]))),
         Store w4
           [EvRead (u16 "audios/api_0.wav");
            EvRead (u16 "audios/api_0.json");
            EvRead (u16 "audios/api_1.wav");
            EvRead (u16 "audios/api_1.json")]
           JNull).
Proof.
  intros Hm Hk.
  apply (add_your_keys_on_missing_keys C cfg req_body w); [exact Hm |].
  unfold keys_missing, elevenLabsApiKey.
  destruct Hk as [-> | [-> | ->]]; try reflexivity.
  apply orb_true_r.
Qed.

Lemma missing_keys_send_the_canned_pair_witness :
  forallb is_read
    (calls (snd (post_chat
                   (fixed_world (inr one_fragment_reply) (inr tt) succeeds
                      disk_of_objects)
                   eleven_key_empty (says "hello") tt))) = true
  /\ post_chat
       (fixed_world (inr one_fragment_reply) (inr tt) succeeds
          disk_of_objects)
       eleven_key_empty (says "hello") tt
     = (Ok (Response 200
              (Messages
                 (JArr
                    [JObj [(u16 "text",
                            JStr (u16 "Please my dear, don't forget to add your API keys!"));
                           (u16 "audio", JStr (u16 "e30="));
                           (u16 "lipsync", JObj []);
                           (u16 "facialExpression", JStr (u16 "angry"));
                           (u16 "animation", JStr (u16 "Angry"))];
                     JObj [(u16 "text",
                            JStr (u16 "You don't want to ruin this with a crazy Gemini and ElevenLabs bill, right?"));
                           (u16 "audio", JStr (u16 "e30="));
                           (u16 "lipsync", JObj []);
                           (u16 "facialExpression", JStr (u16 "smile"));
                           (u16 "animation", JStr (u16 "Laughing"))]]))),
        Store tt
          [EvRead (u16 "audios/api_0.wav");
           EvRead (u16 "audios/api_0.json");
           EvRead (u16 "audios/api_1.wav");
           EvRead (u16 "audios/api_1.json")]
          JNull).
Proof.
  destruct (missing_keys_send_the_canned_pair
              (fixed_world (inr one_fragment_reply) (inr tt) succeeds
                 disk_of_objects)
              eleven_key_empty (says "hello") tt)
    as [only_reads sends];
    [reflexivity | right; left; reflexivity |].
  split; [exact only_reads |].
  apply (sends (u16 "{}") (u16 "{}") (u16 "{}") (u16 "{}") tt tt tt tt
           (JObj []) (JObj []));
    reflexivity.
Defined.

(** ** Replies that are not lists of fragments *)

Section OddReplies.

Context {W : Type} (C : collaborators W) (cfg : config).

(** [message.text] on a [null] element throws before the [try]. *)
Lemma iteration_null (pre post : list json) (s : store W) :
  messages s = JArr (pre ++ JNull :: post) ->
  iteration C cfg (List.length pre) s = (Throw TypeError, s).
Proof.
  intro H. unfold iteration, bind at 1, get_messages.
  rewrite H, index_at. reflexivity.
Qed.

Lemma loop_null (post pre : list json) (s : store W) :
  messages s = JArr (pre ++ post) ->
  In JNull post ->
  fst (loop C cfg (List.length post) (List.length pre) s) = Throw TypeError.
Proof.
  revert pre s. induction post as [| m post IH]; intros pre s H I;
    [destruct I |].
  cbn [loop List.length]. unfold bind at 1.
  destruct (iteration_spec C cfg pre m post s H)
    as (r1 & m' & w1 & evs1 & E1 & _ & R1 & _).
  rewrite E1. destruct R1 as [-> | [-> _]]; [| reflexivity].
  destruct I as [-> | I].
  - rewrite (iteration_null pre post s H) in E1. discriminate E1.
  - set (s1 := Store w1 (calls s ++ evs1) (JArr (pre ++ m' :: post))).
    assert (H1 : messages s1 = JArr ((pre ++ [m']) ++ post)).
    { cbn. now rewrite <- app_assoc. }
    pose proof (IH (pre ++ [m']) s1 H1 I) as X.
    now rewrite length_app, Nat.add_1_r in X.
Qed.

(** On a string, every turn of the loop takes a one-unit string, finds
    no [text] on it, and goes on. *)
Lemma loop_string (str : jsstr) (n i : nat) (s : store W) :
  messages s = JStr str ->
  (i + n <= List.length str)%nat ->
  loop C cfg n i s = (Ok tt, s).
Proof.
  intro H. revert i. induction n as [| n IH]; intros i B; [reflexivity |].
  cbn [loop]. unfold bind at 1.
  assert (It : iteration C cfg i s = (Ok tt, s)).
  { unfold iteration, bind at 1, get_messages. rewrite H. cbn [index].
    destruct (nth_error str i) as [c |] eqn:E.
    - reflexivity.
    - apply nth_error_None in E. lia. }
  rewrite It. apply IH. lia.
Qed.

Variables (req_body : json) (w w' : W) (text : jsstr).

Hypothesis message_given :
  truthy_opt (field req_body (u16 "message")) = true.
Hypothesis keys_given : keys_missing cfg = false.
Hypothesis model_answers :
  generateContent C (genAI_key cfg)
    (or_hello (field req_body (u16 "message"))) w = (inr text, w').

(** X7: when the list of the reply holds a [null], the request is
    answered with status 500, whatever the other fragments are:
    [message.text] is read outside the per-fragment [try]. *)
Theorem null_fragment_fails_the_request (parsed : json) (L : list json) :
  parse (strip_fences text) = Some parsed ->
  parsed = JArr L \/ field parsed (u16 "messages") = Some (JArr L) ->
  In JNull L ->
  fst (post_chat C cfg req_body w)
  = Ok (Response 500
          (Failure (u16 "Failed to process message")
             (Some (EngineText TypeError)))).
Proof.
  intros P Shape I. unfold post_chat, chat, try_catch.
  rewrite (normal_turn_parses C cfg req_body w w' text
             message_given keys_given model_answers) by reflexivity.
  unfold bind at 1, JSON_parse. rewrite P. cbn [ret].
  unfold process_reply, bind at 1.
  rewrite (unwrap_list parsed L _ Shape).
  unfold bind at 1, set_messages. cbn [length_of world calls].
  unfold bind at 1.
  match goal with
  | |- context [loop C cfg _ 0 ?s0] =>
      pose proof (loop_null L [] s0 eq_refl I) as X;
      cbn [List.length] in X;
      destruct (loop C cfg (List.length L) 0 s0) as [r s1]
  end.
  cbn [fst] in X. subst r. reflexivity.
Qed.

(** X8: a reply that parses to a boolean, a number, a string, or an
    object without a truthy [messages] and without a [length], is not
    a list of fragments; it is sent back as the value of [messages]
    with status 200, and no pipeline step runs for it. *)
Theorem odd_reply_is_sent_as_is (parsed : json) :
  parse (strip_fences text) = Some parsed ->
  sent_as_is parsed = true ->
  post_chat C cfg req_body w
  = (Ok (Response 200 (Messages parsed)),
     Store w' [EvGenerate (or_hello (field req_body (u16 "message")))]
       parsed).
Proof.
  intros P Odd. unfold post_chat, chat, try_catch.
  rewrite (normal_turn_parses C cfg req_body w w' text
             message_given keys_given model_answers) by reflexivity.
  unfold bind at 1, JSON_parse. rewrite P. cbn [ret].
  destruct parsed as [| b | n | str | items | ms]; try discriminate Odd;
    try reflexivity.
  - unfold process_reply, bind at 1. cbn [unwrap get_field bind ret field].
    unfold bind at 1, set_messages. cbn [length_of world calls].
    unfold bind at 1.
    match goal with
    | |- context [loop C cfg _ 0 ?s0] =>
        rewrite (loop_string str (List.length str) 0 s0 eq_refl)
          by apply Nat.le_refl
    end.
    reflexivity.
  - cbn [sent_as_is] in Odd. apply andb_true_iff in Odd.
    destruct Odd as [Fm Fl]. apply negb_true_iff in Fm.
    unfold process_reply, bind at 1, unwrap, bind at 1, get_field.
    cbn [ret field].
    assert (U : (match lookup (u16 "messages") ms with
                 | Some v => if truthy v then ret v else ret (JObj ms)
                 | None => ret (JObj ms)
                 end : M W json)
                = ret (JObj ms)).
    { destruct (lookup (u16 "messages") ms) as [v |]; [| reflexivity].
      cbn in Fm. now rewrite Fm. }
    rewrite U. cbn [ret]. unfold bind at 1, set_messages.
    cbn [length_of].
    destruct (lookup (u16 "length") ms); [discriminate Fl | reflexivity].
Qed.

End OddReplies.

Lemma null_fragment_fails_the_request_witness :
  fst (post_chat
         (fixed_world (inr fragment_then_null_reply) (inr tt) succeeds
            disk_of_objects)
         both_keys (says "hello") tt)
  = Ok (Response 500
          (Failure (u16 "Failed to process message")
             (Some (EngineText TypeError)))).
Proof.
  apply (null_fragment_fails_the_request
           (fixed_world (inr fragment_then_null_reply) (inr tt) succeeds
              disk_of_objects)
           both_keys (says "hello") tt tt fragment_then_null_reply)
    with (parsed := JArr [one_fragment; JNull]) (L := [one_fragment; JNull]);
    [reflexivity | reflexivity | reflexivity | vm_compute; reflexivity
    | now left | right; now left].
Defined.

Lemma odd_reply_is_sent_as_is_witness :
  post_chat
    (fixed_world (inr bare_fragment_reply) (inr tt) succeeds disk_of_objects)
    both_keys (says "hello") tt
  = (Ok (Response 200 (Messages one_fragment)),
     Store tt [EvGenerate (JStr (u16 "hello"))] one_fragment).
Proof.
  apply (odd_reply_is_sent_as_is
           (fixed_world (inr bare_fragment_reply) (inr tt) succeeds
              disk_of_objects)
           both_keys (says "hello") tt tt bare_fragment_reply);
    [reflexivity | reflexivity | reflexivity | vm_compute; reflexivity
    | reflexivity].
Defined.

(** ** One fragment through the pipeline *)

Section OneFragment.

Context {W : Type} (C : collaborators W) (cfg : config).
Variables (pre post : list json) (members : list (jsstr * json))
  (text : jsstr) (s : store W).

Hypothesis at_fragment : messages s = JArr (pre ++ JObj members :: post).
Hypothesis has_text : lookup (u16 "text") members = Some (JStr text).

Lemma iteration_runs_pipeline :
  iteration C cfg (List.length pre) s
  = try_catch (media_pipeline C cfg (List.length pre) text)
      (fun _ => ret tt) s.
Proof.
  unfold iteration, bind at 1, get_messages.
  rewrite at_fragment, index_at.
  unfold get_field_opt, get_field, bind at 1. cbn [ret field].
  rewrite has_text. reflexivity.
Qed.

(** X11: when every step succeeds, the steps were made in this order,
    each once: synthesis of the text into [message_i.mp3], ffmpeg,
    rhubarb, the read of [message_i.mp3], the read of
    [message_i.json]; the fragment gets as [audio] the base64 text of
    the mp3 file and as [lipsync] the parsed transcript, and nothing
    else changes. *)
Theorem successful_fragment_gets_audio_and_lipsync
    (w1 w2 w3 w4 w5 : W) (p1 p2 : process) (mp3 transcript : list N)
    (lipsync : json) :
  textToSpeech C (elevenLabsApiKey cfg) voiceID
    (message_file (List.length pre) ".mp3") text (world s) = (inr tt, w1) ->
  exec C (ffmpeg_command (List.length pre)) w1 = (p1, w2) ->
  ended p1 = Exited 0 ->
  exec C (rhubarb_command (List.length pre)) w2 = (p2, w3) ->
  ended p2 = Exited 0 ->
  readFile C (message_file (List.length pre) ".mp3") w3 = (inr mp3, w4) ->
  readFile C (message_file (List.length pre) ".json") w4
  = (inr transcript, w5) ->
  parse (utf8 C transcript) = Some lipsync ->
  iteration C cfg (List.length pre) s
  = (Ok tt,
     Store w5
       (calls s
          ++ [EvSpeech (message_file (List.length pre) ".mp3") text;
              EvExec (ffmpeg_command (List.length pre));
              EvExec (rhubarb_command (List.length pre));
              EvRead (message_file (List.length pre) ".mp3");
              EvRead (message_file (List.length pre) ".json")])
       (JArr (pre
                ++ JObj (obj_set (u16 "lipsync") lipsync
                           (obj_set (u16 "audio")
                              (JStr (Base64.encode mp3)) members))
                :: post))).
Proof.
  intros T E1 Z1 E2 Z2 R1 R2 P.
  rewrite iteration_runs_pipeline.
  unfold try_catch, media_pipeline, bind at 1, voice_textToSpeech.
  rewrite T. cbn [lift]. unfold bind at 1.
  rewrite lipSyncMessage_runs.
  unfold record at 1 2 3. cbn [world calls messages].
  rewrite E1. apply exec_error_none with (command := ffmpeg_command (List.length pre)) in Z1.
  rewrite Z1, E2.
  apply exec_error_none with (command := rhubarb_command (List.length pre)) in Z2.
  rewrite Z2.
  unfold bind at 1.
  match goal with
  | |- context [audioFileToBase64 C ?f ?s3] =>
      rewrite (audioFileToBase64_reads C f s3 mp3 w4 R1)
  end.
  unfold bind at 1, assign_field at 1, record. cbn [world calls messages].
  rewrite at_fragment, (assign_at pre members post).
  unfold bind at 1.
  match goal with
  | |- context [readJsonTranscript C ?f ?s4] =>
      rewrite (readJsonTranscript_reads C f s4 transcript w5 lipsync R2 P)
  end.
  unfold assign_field, record. cbn [world calls messages].
  rewrite (assign_at pre _ post).
  rewrite <- !app_assoc. reflexivity.
Qed.

(** X12: when speech synthesis throws, no command is run and no file
    is read for the fragment; the fragment stays as it was and the
    loop goes on. *)
Theorem failed_synthesis_skips_the_rest (e : exn) (w1 : W) :
  textToSpeech C (elevenLabsApiKey cfg) voiceID
    (message_file (List.length pre) ".mp3") text (world s) = (inl e, w1) ->
  iteration C cfg (List.length pre) s
  = (Ok tt,
     Store w1
       (calls s ++ [EvSpeech (message_file (List.length pre) ".mp3") text])
       (messages s)).
Proof.
  intro T. rewrite iteration_runs_pipeline.
  unfold try_catch, media_pipeline, bind at 1, voice_textToSpeech.
  rewrite T. reflexivity.
Qed.

(** X13: when ffmpeg does not exit with status zero, rhubarb is not
    run and no file is read for the fragment; the fragment stays as it
    was and the loop goes on. *)
Theorem failed_transcode_skips_the_rest (w1 w2 : W) (p1 : process) :
  textToSpeech C (elevenLabsApiKey cfg) voiceID
    (message_file (List.length pre) ".mp3") text (world s) = (inr tt, w1) ->
  exec C (ffmpeg_command (List.length pre)) w1 = (p1, w2) ->
  ended p1 <> Exited 0 ->
  iteration C cfg (List.length pre) s
  = (Ok tt,
     Store w2
       (calls s
          ++ [EvSpeech (message_file (List.length pre) ".mp3") text;
              EvExec (ffmpeg_command (List.length pre))])
       (messages s)).
Proof.
  intros T E1 Z1. rewrite iteration_runs_pipeline.
  unfold try_catch, media_pipeline, bind at 1, voice_textToSpeech.
  rewrite T. cbn [lift]. unfold bind at 1.
  rewrite lipSyncMessage_runs.
  unfold record. cbn [world calls messages]. rewrite E1.
  destruct (exec_error (ffmpeg_command (List.length pre)) p1) eqn:X.
  - rewrite <- app_assoc. reflexivity.
  - apply exec_error_none in X. contradiction.
Qed.

(** X20: when rhubarb does not exit with status zero, no file is read
    for the fragment; the fragment stays as it was and the loop goes
    on. *)
Theorem failed_visemes_skip_the_rest (w1 w2 w3 : W) (p1 p2 : process) :
  textToSpeech C (elevenLabsApiKey cfg) voiceID
    (message_file (List.length pre) ".mp3") text (world s) = (inr tt, w1) ->
  exec C (ffmpeg_command (List.length pre)) w1 = (p1, w2) ->
  ended p1 = Exited 0 ->
  exec C (rhubarb_command (List.length pre)) w2 = (p2, w3) ->
  ended p2 <> Exited 0 ->
  iteration C cfg (List.length pre) s
  = (Ok tt,
     Store w3
       (calls s
          ++ [EvSpeech (message_file (List.length pre) ".mp3") text;
              EvExec (ffmpeg_command (List.length pre));
              EvExec (rhubarb_command (List.length pre))])
       (messages s)).
Proof.
  intros T E1 Z1 E2 Z2. rewrite iteration_runs_pipeline.
  unfold try_catch, media_pipeline, bind at 1, voice_textToSpeech.
  rewrite T. cbn [lift]. unfold bind at 1.
  rewrite lipSyncMessage_runs.
  unfold record. cbn [world calls messages]. rewrite E1.
  apply exec_error_none with (command := ffmpeg_command (List.length pre))
    in Z1.
  rewrite Z1, E2.
  destruct (exec_error (rhubarb_command (List.length pre)) p2) eqn:X.
  - rewrite <- app_assoc. reflexivity.
  - apply exec_error_none in X. contradiction.
Qed.

(** X21: when the mp3 cannot be read back, the transcript is not read
    either; the fragment stays as it was and the loop goes on. *)
Theorem unreadable_audio_skips_the_transcript
    (w1 w2 w3 w4 : W) (p1 p2 : process) (e : exn) :
  textToSpeech C (elevenLabsApiKey cfg) voiceID
    (message_file (List.length pre) ".mp3") text (world s) = (inr tt, w1) ->
  exec C (ffmpeg_command (List.length pre)) w1 = (p1, w2) ->
  ended p1 = Exited 0 ->
  exec C (rhubarb_command (List.length pre)) w2 = (p2, w3) ->
  ended p2 = Exited 0 ->
  readFile C (message_file (List.length pre) ".mp3") w3 = (inl e, w4) ->
  iteration C cfg (List.length pre) s
  = (Ok tt,
     Store w4
       (calls s
          ++ [EvSpeech (message_file (List.length pre) ".mp3") text;
              EvExec (ffmpeg_command (List.length pre));
              EvExec (rhubarb_command (List.length pre));
              EvRead (message_file (List.length pre) ".mp3")])
       (messages s)).
Proof.
  intros T E1 Z1 E2 Z2 R1. rewrite iteration_runs_pipeline.
  unfold try_catch, media_pipeline, bind at 1, voice_textToSpeech.
  rewrite T. cbn [lift]. unfold bind at 1.
  rewrite lipSyncMessage_runs.
  unfold record at 1 2 3. cbn [world calls messages]. rewrite E1.
  apply exec_error_none with (command := ffmpeg_command (List.length pre))
    in Z1.
  rewrite Z1, E2.
  apply exec_error_none with (command := rhubarb_command (List.length pre))
    in Z2.
  rewrite Z2.
  unfold bind at 1, audioFileToBase64, bind at 1, fs_readFile.
  cbn [world]. rewrite R1. unfold record. cbn [lift calls messages].
  rewrite <- !app_assoc. reflexivity.
Qed.

End OneFragment.

Lemma successful_fragment_gets_audio_and_lipsync_witness :
  iteration
    (fixed_world (inr one_fragment_reply) (inr tt) succeeds disk_of_objects)
    both_keys 0 at_one_fragment
  = (Ok tt,
     Store tt
       [EvSpeech (message_file 0 ".mp3") (u16 "hi");
        EvExec (ffmpeg_command 0); EvExec (rhubarb_command 0);
        EvRead (message_file 0 ".mp3"); EvRead (message_file 0 ".json")]
       (JArr [JObj [(u16 "text", JStr (u16 "hi"));
                    (u16 "facialExpression", JStr (u16 "smile"));
                    (u16 "animation", JStr (u16 "Idle"));
                    (u16 "audio", JStr (u16 "e30="));
                    (u16 "lipsync", JObj [])]])).
Proof.
  apply (successful_fragment_gets_audio_and_lipsync
           (fixed_world (inr one_fragment_reply) (inr tt) succeeds
              disk_of_objects)
           both_keys [] [] _ (u16 "hi") at_one_fragment eq_refl eq_refl
           tt tt tt tt tt (succeeds []) (succeeds []) (u16 "{}") (u16 "{}")
           (JObj []));
    reflexivity.
Defined.

Lemma failed_synthesis_skips_the_rest_witness :
  iteration
    (fixed_world (inr one_fragment_reply) (inl quota_exceeded) succeeds
       disk_of_objects)
    both_keys 0 at_one_fragment
  = (Ok tt,
     Store tt [EvSpeech (message_file 0 ".mp3") (u16 "hi")]
       (JArr [one_fragment])).
Proof.
  apply (failed_synthesis_skips_the_rest
           (fixed_world (inr one_fragment_reply) (inl quota_exceeded) succeeds
              disk_of_objects)
           both_keys [] [] _ (u16 "hi") at_one_fragment eq_refl eq_refl
           quota_exceeded tt);
    reflexivity.
Defined.

Lemma failed_transcode_skips_the_rest_witness :
  iteration
    (fixed_world (inr one_fragment_reply) (inr tt) fails disk_of_objects)
    both_keys 0 at_one_fragment
  = (Ok tt,
     Store tt
       [EvSpeech (message_file 0 ".mp3") (u16 "hi");
        EvExec (ffmpeg_command 0)]
       (JArr [one_fragment])).
Proof.
  apply (failed_transcode_skips_the_rest
           (fixed_world (inr one_fragment_reply) (inr tt) fails
              disk_of_objects)
           both_keys [] [] _ (u16 "hi") at_one_fragment eq_refl eq_refl
           tt tt (fails []));
    [reflexivity | reflexivity | discriminate].
Defined.

(** ** What the pipeline leaves alone *)

Lemma lookup_obj_set_other (k k' : jsstr) (v : json)
    (ms : list (jsstr * json)) :
  k <> k' -> lookup k (obj_set k' v ms) = lookup k ms.
Proof.
  intro D.
  assert (F : jsstr_eqb k k' = false).
  { destruct (jsstr_eqb k k') eqn:E; [| reflexivity].
    apply jsstr_eqb_eq in E. contradiction. }
  induction ms as [| [k0 v0] ms IH]; cbn.
  - now rewrite F.
  - destruct (jsstr_eqb k' k0) eqn:E; cbn.
    + apply jsstr_eqb_eq in E. subst k0. now rewrite F.
    + now rewrite IH.
Qed.

Lemma emitted_other_fields (m m' : json) (k : jsstr) :
  emitted m m' ->
  k <> u16 "audio" -> k <> u16 "lipsync" ->
  field m' k = field m k.
Proof.
  intros [| members audio -> | members audio lipsync ->] Da Dl;
    cbn [field]; trivial.
  - now apply lookup_obj_set_other.
  - now rewrite !lookup_obj_set_other.
Qed.

Lemma emitted_lipsync_with_audio (m m' : json) :
  emitted m m' ->
  field m (u16 "lipsync") = None ->
  field m' (u16 "lipsync") <> None ->
  field m' (u16 "audio") <> None.
Proof.
  intros [| members audio -> | members audio lipsync ->] N0 L1;
    cbn [field] in *.
  - contradiction.
  - rewrite lookup_obj_set_other in L1 by discriminate. contradiction.
  - rewrite lookup_obj_set_other by discriminate.
    rewrite lookup_obj_set. discriminate.
Qed.

Lemma Forall2_at {A B} (R : A -> B -> Prop) (l : list A) (l' : list B)
    (j : nat) (a : A) (b : B) :
  Forall2 R l l' ->
  nth_error l j = Some a -> nth_error l' j = Some b -> R a b.
Proof.
  intro F. revert j. induction F as [| x y l l' Rxy F IH]; intros [| j] Ha Hb;
    try discriminate Ha.
  - cbn in Ha, Hb. now inversion Ha; inversion Hb; subst.
  - exact (IH j Ha Hb).
Qed.

Section Fragments.

Context {W : Type} (C : collaborators W).
Variables (cfg : config) (req_body : json) (w w' : W) (text : jsstr).
Variables (parsed : json) (L L' : list json) (s' : store W).

Hypothesis message_given :
  truthy_opt (field req_body (u16 "message")) = true.
Hypothesis keys_given : keys_missing cfg = false.
Hypothesis model_answers :
  generateContent C (genAI_key cfg)
    (or_hello (field req_body (u16 "message"))) w = (inr text, w').
Hypothesis reply_parses : parse (strip_fences text) = Some parsed.
Hypothesis reply_is_list :
  parsed = JArr L \/ field parsed (u16 "messages") = Some (JArr L).
Hypothesis answered :
  post_chat C cfg req_body w
  = (Ok (Response 200 (Messages (JArr L'))), s').

Lemma answered_fragments_emitted : Forall2 emitted L L'.
Proof.
  pose proof answered as E. unfold post_chat, chat, try_catch in E.
  rewrite (normal_turn_parses C cfg req_body w w' text
             message_given keys_given model_answers) in E by reflexivity.
  unfold bind at 1, JSON_parse in E. rewrite reply_parses in E.
  cbn [ret] in E.
  match type of E with
  | context [process_reply C cfg parsed ?s0] =>
      destruct (process_reply_spec C cfg parsed L s0 reply_is_list)
        as (r & L2 & w2 & evs & E2 & F2 & R & _)
  end.
  rewrite E2 in E.
  destruct R as [-> | [-> _]]; [| discriminate E].
  inversion E; subst. exact F2.
Qed.

(** X9: in the response of a model-driven turn, every fragment agrees
    with the fragment the model gave at the same position on every key
    other than [audio] and [lipsync]: the pipeline never touches
    [text], [facialExpression], [animation] or anything else the model
    put there. *)
Theorem pipeline_keeps_the_other_fields (j : nat) (m m' : json) (k : jsstr) :
  nth_error L j = Some m ->
  nth_error L' j = Some m' ->
  k <> u16 "audio" -> k <> u16 "lipsync" ->
  field m' k = field m k.
Proof.
  intros Hm Hm' Da Dl.
  apply emitted_other_fields; trivial.
  exact (Forall2_at _ _ _ _ _ _ answered_fragments_emitted Hm Hm').
Qed.

(** X10: in the response of a model-driven turn, a fragment that the
    model gave without [lipsync] never carries [lipsync] without
    [audio]: the transcript is attached only after the audio. *)
Theorem lipsync_comes_with_audio (j : nat) (m m' : json) :
  nth_error L j = Some m ->
  nth_error L' j = Some m' ->
  field m (u16 "lipsync") = None ->
  field m' (u16 "lipsync") <> None ->
  field m' (u16 "audio") <> None.
Proof.
  intros Hm Hm'.
  apply emitted_lipsync_with_audio.
  exact (Forall2_at _ _ _ _ _ _ answered_fragments_emitted Hm Hm').
Qed.

End Fragments.

Lemma pipeline_keeps_the_other_fields_witness :
  field one_fragment_with_media (u16 "text")
  = field one_fragment (u16 "text").
Proof.
  apply (pipeline_keeps_the_other_fields
           (fixed_world (inr one_fragment_reply) (inr tt) succeeds
              disk_of_objects)
           both_keys (says "hello") tt tt one_fragment_reply
           (JArr [one_fragment]) [one_fragment] [one_fragment_with_media]
           (snd (post_chat
                   (fixed_world (inr one_fragment_reply) (inr tt) succeeds
                      disk_of_objects)
                   both_keys (says "hello") tt)))
    with (j := 0%nat);
    solve [discriminate | now left | vm_compute; reflexivity].
Defined.

Lemma lipsync_comes_with_audio_witness :
  field one_fragment_with_media (u16 "audio") <> None.
Proof.
  apply (lipsync_comes_with_audio
           (fixed_world (inr one_fragment_reply) (inr tt) succeeds
              disk_of_objects)
           both_keys (says "hello") tt tt one_fragment_reply
           (JArr [one_fragment]) [one_fragment] [one_fragment_with_media]
           (snd (post_chat
                   (fixed_world (inr one_fragment_reply) (inr tt) succeeds
                      disk_of_objects)
                   both_keys (says "hello") tt)))
    with (j := 0%nat) (m := one_fragment);
    solve [discriminate | now left | vm_compute; reflexivity].
Defined.

(** ** The files of a fragment *)

Lemma u16_inj (a b : string) : u16 a = u16 b -> a = b.
Proof.
  unfold u16. intro H.
  rewrite <- (string_of_list_ascii_of_string a),
    <- (string_of_list_ascii_of_string b).
  f_equal. revert H.
  generalize (list_ascii_of_string a) (list_ascii_of_string b).
  induction l as [| x l IH]; intros [| y l'] H; try discriminate H; trivial.
  cbn in H. inversion H as [[Hx Hl]].
  f_equal; [| now apply IH].
  rewrite <- (ascii_N_embedding x), <- (ascii_N_embedding y). now rewrite Hx.
Qed.

Lemma dec_of_nat_inj (i j : nat) : dec_of_nat i = dec_of_nat j -> i = j.
Proof.
  unfold dec_of_nat. intro H. apply u16_inj in H.
  assert (U : Nat.to_uint i = Nat.to_uint j).
  { pose proof (NilEmpty.usu (Nat.to_uint i)) as Hi.
    pose proof (NilEmpty.usu (Nat.to_uint j)) as Hj.
    rewrite H in Hi. rewrite Hi in Hj. now inversion Hj. }
  rewrite <- (DecimalNat.Unsigned.of_to i), <- (DecimalNat.Unsigned.of_to j).
  now rewrite U.
Qed.

Lemma app_same_length_inv {A} (a b x y : list A) :
  a ++ x = b ++ y -> List.length a = List.length b -> a = b.
Proof.
  revert b. induction a as [| c a IH]; intros [| d b] H Len;
    try discriminate Len; trivial.
  cbn in H, Len. inversion H. f_equal. apply IH; [assumption | lia].
Qed.

(** X14: the files and the commands of the pipeline are told apart by
    the index of the fragment: two fragments of a turn never share an
    mp3, wav or json file, nor a command line. *)
Theorem fragments_have_their_own_files (i j : nat) (ext : string) :
  (message_file i ext = message_file j ext -> i = j)
  /\ (ffmpeg_command i = ffmpeg_command j -> i = j)
  /\ (rhubarb_command i = rhubarb_command j -> i = j).
Proof.
  assert (F : forall e, message_file i e = message_file j e -> i = j).
  { intros e H. unfold message_file in H.
    apply app_inv_head in H. apply app_inv_tail in H.
    now apply dec_of_nat_inj. }
  split; [apply F |]. split; intro H.
  - unfold ffmpeg_command in H. apply app_inv_head in H.
    unfold message_file in H. rewrite <- !app_assoc in H.
    apply app_inv_head in H.
    apply (f_equal (@List.length N)) in H as Hlen.
    rewrite !length_app in Hlen.
    assert (Hd : List.length (dec_of_nat i) = List.length (dec_of_nat j)).
    { lia. }
    apply dec_of_nat_inj. exact (app_same_length_inv _ _ _ _ H Hd).
  - unfold rhubarb_command in H. apply app_inv_head in H.
    unfold message_file in H. rewrite <- !app_assoc in H.
    apply app_inv_head in H.
    apply (f_equal (@List.length N)) in H as Hlen.
    rewrite !length_app in Hlen.
    assert (Hd : List.length (dec_of_nat i) = List.length (dec_of_nat j)).
    { lia. }
    apply dec_of_nat_inj. exact (app_same_length_inv _ _ _ _ H Hd).
Qed.

Lemma fragments_have_their_own_files_witness : 3%nat = 3%nat.
Proof.
  apply (fragments_have_their_own_files 3 3 ".mp3"). reflexivity.
Defined.

(** ** The shape of every answer *)

Section Answers.

Context {W : Type} (C : collaborators W) (cfg : config).

Lemma process_reply_shape (parsed : json) (s s' : store W) (r : response) :
  process_reply C cfg parsed s = (Ok r, s') ->
  exists v : json, r = Response 200 (Messages v).
Proof.
  unfold process_reply. unfold bind at 1.
  destruct (unwrap parsed s) as [[list | e | g] s1]; try discriminate.
  unfold bind at 1, set_messages. unfold bind at 1.
  match goal with
  | |- context [match ?c ?s0 with _ => _ end] =>
      destruct (c s0) as [[[] | e | g] s2]; try discriminate
  end.
  unfold bind, get_messages, ret. intro H. inversion H. now eexists.
Qed.

Lemma chat_try_shape (req_body : json) (s s' : store W) (r : response) :
  chat_try C cfg req_body s = (Ok r, s') ->
  exists v : json, r = Response 200 (Messages v).
Proof.
  unfold chat_try. unfold bind at 1.
  destruct (get_field req_body (u16 "message") s)
    as [[userMessage | e | g] s1]; try discriminate.
  destruct (negb (truthy_opt userMessage)).
  { intro H. destruct (canned_shape C _ _ _ _ _ _ H) as (? & ? & ? & ? & ->).
    now eexists. }
  destruct (keys_missing cfg).
  { intro H. destruct (canned_shape C _ _ _ _ _ _ H) as (? & ? & ? & ? & ->).
    now eexists. }
  unfold bind at 1.
  destruct (model_generateContent C _ _ s1) as [[text | e | g] s2];
    try discriminate.
  unfold bind at 1.
  destruct (JSON_parse (strip_fences text) s2) as [[parsed | e | g] s3];
    try discriminate.
  apply process_reply_shape.
Qed.

(** X15: whatever the request and the world, an answer of the handler
    has one of two shapes: status 200 with a body of [messages], or
    status 500 with the fixed [error] text and the [details] of what
    was thrown.  No status 200 carries an error and no status 500
    carries fragments. *)
Theorem chat_answers_in_two_shapes (req_body : json) (s s' : store W)
    (r : response) :
  chat C cfg req_body s = (Ok r, s') ->
  (exists v : json, r = Response 200 (Messages v))
  \/ (exists e : exn,
        fst (chat_try C cfg req_body s) = Throw e
        /\ r = Response 500
                 (Failure (u16 "Failed to process message")
                    (error_message e))).
Proof.
  unfold chat, try_catch.
  destruct (chat_try C cfg req_body s) as [[r0 | e | g] s1] eqn:E;
    intro H; try discriminate H.
  - left. inversion H; subst. exact (chat_try_shape _ _ _ _ E).
  - right. exists e. inversion H. now split.
Qed.

End Answers.

Lemma chat_answers_in_two_shapes_witness :
  (exists v : json, Response 200 (Messages (JArr [])) = Response 200 (Messages v))
  \/ (exists e : exn,
        fst (chat_try
               (fixed_world (inr fenced_empty_array) (inr tt) succeeds
                  disk_of_objects)
               both_keys (says "hello") (Store tt [] JNull)) = Throw e
        /\ Response 200 (Messages (JArr []))
           = Response 500
               (Failure (u16 "Failed to process message") (error_message e))).
Proof.
  apply (chat_answers_in_two_shapes
           (fixed_world (inr fenced_empty_array) (inr tt) succeeds
              disk_of_objects)
           both_keys (says "hello") (Store tt [] JNull)
           (Store tt [EvGenerate (JStr (u16 "hello"))] (JArr []))).
  reflexivity.
Defined.

(** ** Calls of the language model *)

Section ModelCalls.

Context {W : Type} (C : collaborators W) (cfg : config).

Lemma model_free_silent {A} (c : M W A) :
  (forall s, calls (snd (c s)) = calls s) -> model_free c.
Proof.
  intros H s. exists []. rewrite H, app_nil_r. now split.
Qed.

Lemma model_free_bind {A B} (c : M W A) (k : A -> M W B) :
  model_free c -> (forall a, model_free (k a)) -> model_free (bind c k).
Proof.
  intros Fc Fk s. destruct (Fc s) as (evs & E & P). unfold bind.
  destruct (c s) as [[a | e | g] s1]; cbn [snd] in E |- *;
    try (exists evs; now split).
  destruct (Fk a s1) as (evs2 & E2 & P2).
  exists (evs ++ evs2). rewrite E2, E, app_assoc, forallb_app, P, P2.
  now split.
Qed.

Lemma model_free_try_catch {A} (c : M W A) (h : exn -> M W A) :
  model_free c -> (forall e, model_free (h e)) -> model_free (try_catch c h).
Proof.
  intros Fc Fh s. destruct (Fc s) as (evs & E & P). unfold try_catch.
  destruct (c s) as [[a | e | g] s1]; cbn [snd] in E |- *;
    try (exists evs; now split).
  destruct (Fh e s1) as (evs2 & E2 & P2).
  exists (evs ++ evs2). rewrite E2, E, app_assoc, forallb_app, P, P2.
  now split.
Qed.

Lemma model_free_fs_readFile (file : jsstr) : model_free (fs_readFile C file).
Proof.
  intro s. exists [EvRead file]. unfold fs_readFile.
  destruct (readFile C file (world s)). now split.
Qed.

Lemma model_free_execCommand (command : jsstr) :
  model_free (execCommand C command).
Proof.
  intro s. exists [EvExec command]. unfold execCommand.
  destruct (exec C command (world s)) as [p w1].
  destruct (execCommand_promise command p); now split.
Qed.

Lemma model_free_voice_textToSpeech (key : option jsstr)
    (voice file text : jsstr) :
  model_free (voice_textToSpeech C key voice file text).
Proof.
  intro s. exists [EvSpeech file text]. unfold voice_textToSpeech.
  destruct (textToSpeech C key voice file text (world s)). now split.
Qed.

Lemma model_free_JSON_parse (text : jsstr) :
  model_free (JSON_parse text : M W json).
Proof.
  apply model_free_silent. intro s. unfold JSON_parse.
  now destruct (parse text).
Qed.

Lemma model_free_assign_field (i : nat) (k : jsstr) (v : json) :
  model_free (assign_field i k v : M W unit).
Proof.
  apply model_free_silent. intro s. unfold assign_field.
  now destruct (assign i k v (messages s)).
Qed.

Lemma model_free_readJsonTranscript (file : jsstr) :
  model_free (readJsonTranscript C file).
Proof.
  apply model_free_bind; [apply model_free_fs_readFile |].
  intro. apply model_free_JSON_parse.
Qed.

Lemma model_free_audioFileToBase64 (file : jsstr) :
  model_free (audioFileToBase64 C file).
Proof.
  apply model_free_bind; [apply model_free_fs_readFile |].
  intro. now apply model_free_silent.
Qed.

Lemma model_free_lipSyncMessage (i : nat) : model_free (lipSyncMessage C i).
Proof.
  apply model_free_try_catch; [| intro; now apply model_free_silent].
  apply model_free_bind; [apply model_free_execCommand | intro].
  apply model_free_bind; [apply model_free_execCommand | intro].
  now apply model_free_silent.
Qed.

Lemma model_free_media_pipeline (i : nat) (text : jsstr) :
  model_free (media_pipeline C cfg i text).
Proof.
  apply model_free_bind; [apply model_free_voice_textToSpeech | intro].
  apply model_free_bind; [apply model_free_lipSyncMessage | intro].
  apply model_free_bind; [apply model_free_audioFileToBase64 | intro].
  apply model_free_bind; [apply model_free_assign_field | intro].
  apply model_free_bind; [apply model_free_readJsonTranscript | intro].
  apply model_free_assign_field.
Qed.

Lemma model_free_iteration (i : nat) : model_free (iteration C cfg i).
Proof.
  apply model_free_bind; [now apply model_free_silent | intro ms].
  apply model_free_bind.
  { apply model_free_silent. intro s.
    destruct (index ms i) as [[] |]; reflexivity. }
  intro textInput.
  apply model_free_try_catch; [| intro; now apply model_free_silent].
  apply model_free_bind.
  { apply model_free_silent. intro s.
    destruct textInput as [[] |]; reflexivity. }
  intro. apply model_free_media_pipeline.
Qed.

Lemma model_free_loop (n i : nat) : model_free (loop C cfg n i).
Proof.
  revert i. induction n as [| n IH]; intro i; cbn [loop].
  - now apply model_free_silent.
  - apply model_free_bind; [apply model_free_iteration | intro; apply IH].
Qed.

Lemma model_free_process_reply (parsed : json) :
  model_free (process_reply C cfg parsed).
Proof.
  apply model_free_bind.
  { apply model_free_bind.
    - apply model_free_silent. intro s. now destruct parsed.
    - intros [v |]; [destruct (truthy v) |]; now apply model_free_silent. }
  intro list.
  apply model_free_bind; [now apply model_free_silent | intro].
  apply model_free_bind.
  { destruct (length_of list);
      [apply model_free_loop | now apply model_free_silent
      | now apply model_free_silent]. }
  intro. apply model_free_bind; [now apply model_free_silent | intro].
  now apply model_free_silent.
Qed.

Lemma model_free_canned (a0 a1 : string)
    (reply : jsstr -> json -> jsstr -> json -> json) :
  model_free (canned C a0 a1 reply).
Proof.
  apply model_free_bind; [apply model_free_audioFileToBase64 | intro].
  apply model_free_bind; [apply model_free_readJsonTranscript | intro].
  apply model_free_bind; [apply model_free_audioFileToBase64 | intro].
  apply model_free_bind; [apply model_free_readJsonTranscript | intro].
  now apply model_free_silent.
Qed.

Lemma normal_turn_calls_model (req_body : json) (s : store W) :
  truthy_opt (field req_body (u16 "message")) = true ->
  keys_missing cfg = false ->
  chat_try C cfg req_body s
  = bind (model_generateContent C (genAI_key cfg)
            (or_hello (field req_body (u16 "message"))))
      (fun responseText =>
         bind (JSON_parse (strip_fences responseText)) (process_reply C cfg))
      s.
Proof.
  intros Hm Hk. unfold chat_try, bind at 1, get_field.
  assert (Hf : (match req_body with
                | JNull => throw TypeError
                | _ => ret (field req_body (u16 "message"))
                end : M W (option json)) s
               = (Ok (field req_body (u16 "message")), s)).
  { destruct req_body; try reflexivity. cbn in Hm. discriminate Hm. }
  rewrite Hf, Hm, Hk. reflexivity.
Qed.

(** X16: in one request the language model is called at most once,
    and before anything else; it is called with the [message] of the
    request itself, so the ["Hello"] that line 152 falls back to is
    never sent. *)
Theorem model_is_called_once_at_most (req_body : json) (w : W) :
  forallb not_generate (calls (snd (post_chat C cfg req_body w))) = true
  \/ exists (m : json) (rest : list event),
      field req_body (u16 "message") = Some m
      /\ truthy m = true
      /\ calls (snd (post_chat C cfg req_body w)) = EvGenerate m :: rest
      /\ forallb not_generate rest = true.
Proof.
  unfold post_chat. rewrite chat_keeps_calls_of_try.
  destruct (truthy_opt (field req_body (u16 "message"))) eqn:Hm.
  2:{ left. destruct req_body eqn:B; try reflexivity;
        (rewrite greeting_branch by (discriminate || assumption);
         destruct (model_free_canned "intro_0" "intro_1" greeting
                     (Store w [] JNull)) as (evs & E & P);
         rewrite E; exact P). }
  destruct (keys_missing cfg) eqn:Hk.
  { left. rewrite misconfigured_branch by assumption.
    destruct (model_free_canned "api_0" "api_1" add_your_keys
                (Store w [] JNull)) as (evs & E & P).
    rewrite E. exact P. }
  right.
  rewrite normal_turn_calls_model by assumption.
  destruct (field req_body (u16 "message")) as [m |]; [| discriminate Hm].
  cbn [truthy_opt] in Hm. exists m.
  unfold or_hello. rewrite Hm.
  unfold bind at 1, model_generateContent. cbn [world].
  destruct (generateContent C (genAI_key cfg) m w) as [[e | text] w1];
    cbn [lift].
  - exists []. repeat split.
  - assert (F : model_free
                  (bind (JSON_parse (strip_fences text))
                     (process_reply C cfg))).
    { apply model_free_bind; [apply model_free_JSON_parse |].
      apply model_free_process_reply. }
    destruct (F (record (EvGenerate m) w1 (Store w [] JNull)))
      as (evs & E & P).
    exists evs. rewrite E. repeat split. exact P.
Qed.

End ModelCalls.

(** ** The base64 text of a file *)

Module Base64Facts.
Import Base64 Base64Decode.

Lemma in_all_bytes (a : N) : a < 256 -> In a all_bytes.
Proof.
  intro H. unfold all_bytes. rewrite <- (N2Nat.id a).
  apply in_map, in_seq. lia.
Qed.

Lemma on_bytes (f : N -> bool) :
  forallb f all_bytes = true -> forall a, a < 256 -> f a = true.
Proof.
  intros H a Ha. rewrite forallb_forall in H. now apply H, in_all_bytes.
Qed.

Lemma on_byte_pairs (f : N -> N -> bool) :
  forallb (fun a => forallb (f a) all_bytes) all_bytes = true ->
  forall a b, a < 256 -> b < 256 -> f a b = true.
Proof.
  intros H a b Ha Hb.
  apply (on_bytes (f a)); [| exact Hb].
  exact (on_bytes (fun a => forallb (f a) all_bytes) H a Ha).
Qed.

Lemma option_eqb_eq (x : option N) (y : N) :
  option_eqb x y = true -> x = Some y.
Proof.
  destruct x as [v |]; cbn; [| discriminate].
  intro H. apply N.eqb_eq in H. now subst.
Qed.

(** The first unit of a group and the bits it gives back. *)
Lemma unit0 (a : N) :
  a < 256 ->
  dec (enc (N.shiftr a 2)) = Some (N.shiftr a 2).
Proof.
  intro H. apply option_eqb_eq. revert a H.
  apply (on_bytes (fun a => option_eqb (dec (enc (N.shiftr a 2)))
                              (N.shiftr a 2))).
  vm_compute. reflexivity.
Qed.

Lemma unit1 (a b : N) :
  a < 256 -> b < 256 ->
  let x1 := N.lor (N.shiftl (N.land a 3) 4) (N.shiftr b 4) in
  dec (enc x1) = Some x1
  /\ N.lor (N.shiftl (N.shiftr a 2) 2) (N.shiftr x1 4) = a
  /\ N.shiftl (N.land x1 15) 4 = N.shiftl (N.shiftr b 4) 4.
Proof.
  intros Ha Hb x1. subst x1.
  pose proof
    (on_byte_pairs
       (fun a b =>
          let x1 := N.lor (N.shiftl (N.land a 3) 4) (N.shiftr b 4) in
          option_eqb (dec (enc x1)) x1
          && (N.lor (N.shiftl (N.shiftr a 2) 2) (N.shiftr x1 4) =? a)
          && (N.shiftl (N.land x1 15) 4 =? N.shiftl (N.shiftr b 4) 4)))
    as F.
  cbv zeta in F. specialize (F ltac:(vm_compute; reflexivity) a b Ha Hb).
  apply andb_true_iff in F. destruct F as [F F3].
  apply andb_true_iff in F. destruct F as [F1 F2].
  apply option_eqb_eq in F1. apply N.eqb_eq in F2, F3. now repeat split.
Qed.

Lemma unit2 (b c : N) :
  b < 256 -> c < 256 ->
  let x2 := N.lor (N.shiftl (N.land b 15) 2) (N.shiftr c 6) in
  dec (enc x2) = Some x2
  /\ (enc x2 =? pad) = false
  /\ N.lor (N.shiftl (N.shiftr b 4) 4) (N.shiftr x2 2) = b
  /\ N.lor (N.shiftl (N.land x2 3) 6) (N.land c 63) = c
  /\ dec (enc (N.land c 63)) = Some (N.land c 63)
  /\ (enc (N.land c 63) =? pad) = false.
Proof.
  intros Hb Hc x2. subst x2.
  pose proof
    (on_byte_pairs
       (fun b c =>
          let x2 := N.lor (N.shiftl (N.land b 15) 2) (N.shiftr c 6) in
          option_eqb (dec (enc x2)) x2
          && negb (enc x2 =? pad)
          && (N.lor (N.shiftl (N.shiftr b 4) 4) (N.shiftr x2 2) =? b)
          && (N.lor (N.shiftl (N.land x2 3) 6) (N.land c 63) =? c)
          && option_eqb (dec (enc (N.land c 63))) (N.land c 63)
          && negb (enc (N.land c 63) =? pad)))
    as F.
  cbv zeta in F. specialize (F ltac:(vm_compute; reflexivity) b c Hb Hc).
  repeat (apply andb_true_iff in F; destruct F as [F ?]).
  repeat match goal with
         | H : negb _ = true |- _ => apply negb_true_iff in H
         | H : option_eqb _ _ = true |- _ => apply option_eqb_eq in H
         | H : (_ =? _) = true |- _ => apply N.eqb_eq in H
         end.
  now repeat split.
Qed.

(** The last group of a text that ends after one or two bytes. *)
Lemma tail1 (a : N) :
  a < 256 -> decode (encode [a]) = Some [a].
Proof.
  intro H.
  assert (F : option_eqb (option_map (fun l => hd 0 l) (decode (encode [a]))) a
              && (match decode (encode [a]) with
                  | Some [_] => true
                  | _ => false
                  end) = true).
  { revert a H.
    apply (on_bytes
             (fun a =>
                option_eqb (option_map (fun l => hd 0 l) (decode (encode [a]))) a
                && (match decode (encode [a]) with
                    | Some [_] => true
                    | _ => false
                    end))).
    vm_compute. reflexivity. }
  apply andb_true_iff in F. destruct F as [F1 F2].
  destruct (decode (encode [a])) as [[| x [| y l]] |]; try discriminate F2.
  cbn in F1. apply N.eqb_eq in F1. now subst.
Qed.

Lemma tail2 (a b : N) :
  a < 256 -> b < 256 -> decode (encode [a; b]) = Some [a; b].
Proof.
  intros Ha Hb.
  assert (F : match decode (encode [a; b]) with
              | Some [x; y] => (x =? a) && (y =? b)
              | _ => false
              end = true).
  { revert a b Ha Hb.
    apply (on_byte_pairs
             (fun a b =>
                match decode (encode [a; b]) with
                | Some [x; y] => (x =? a) && (y =? b)
                | _ => false
                end)).
    vm_compute. reflexivity. }
  destruct (decode (encode [a; b])) as [[| x [| y [| z l]]] |];
    try discriminate F.
  apply andb_true_iff in F. destruct F as [F1 F2].
  apply N.eqb_eq in F1, F2. now subst.
Qed.

Lemma group (a b c : N) (r : list N) :
  a < 256 -> b < 256 -> c < 256 ->
  decode (encode (a :: b :: c :: r))
  = option_map (fun rest => a :: b :: c :: rest) (decode (encode r)).
Proof.
  intros Ha Hb Hc.
  destruct (unit1 a b Ha Hb) as (D1 & A & B1).
  destruct (unit2 b c Hb Hc) as (D2 & P2 & B2 & C2 & D3 & P3).
  cbn [encode decode].
  rewrite (unit0 a Ha), D1, P2, D2, P3, D3.
  cbv zeta. rewrite A, B1, B2, C2.
  now destruct (decode (encode r)).
Qed.

Lemma by_threes {A} (P : list A -> Prop) :
  P [] -> (forall a, P [a]) -> (forall a b, P [a; b]) ->
  (forall a b c r, P r -> P (a :: b :: c :: r)) ->
  forall l, P l.
Proof.
  intros P0 P1 P2 P3 l.
  assert (H : P l /\ (forall a, P (a :: l)) /\ (forall a b, P (a :: b :: l))).
  { induction l as [| x l (H0 & H1 & H2)].
    - now repeat split.
    - split; [apply H1 |]. split; [intro a; apply H2 |].
      intros a b. now apply P3. }
  exact (proj1 H).
Qed.

Lemma decode_encode (bs : list N) :
  Forall is_byte bs -> decode (encode bs) = Some bs.
Proof.
  induction bs as [| a | a b | a b c r IH] using by_threes; intro F.
  - reflexivity.
  - inversion F; subst. now apply tail1.
  - inversion F as [| ? ? Ha F1]; subst. inversion F1; subst.
    now apply tail2.
  - inversion F as [| ? ? Ha F1]; subst.
    inversion F1 as [| ? ? Hb F2]; subst.
    inversion F2 as [| ? ? Hc F3]; subst.
    rewrite group by assumption. now rewrite (IH F3).
Qed.

Lemma encode_length (bs : list N) :
  List.length (encode bs) = (4 * ((List.length bs + 2) / 3))%nat.
Proof.
  induction bs as [| a | a b | a b c r IH] using by_threes;
    try reflexivity.
  cbn [encode List.length]. rewrite IH.
  replace (S (S (S (List.length r))) + 2)%nat
    with (1 * 3 + (List.length r + 2))%nat by lia.
  rewrite Nat.div_add_l by discriminate. lia.
Qed.

End Base64Facts.

(** X17: the [audio] text determines the bytes of the file: decoding
    the base64 text of a sequence of bytes gives the sequence back, so
    two files with different contents never get the same text. *)
Theorem base64_text_gives_the_bytes_back (bs bs' : list N) :
  Forall is_byte bs ->
  Base64Decode.decode (Base64.encode bs) = Some bs
  /\ (Forall is_byte bs' -> Base64.encode bs = Base64.encode bs' -> bs = bs').
Proof.
  intro F. split; [now apply Base64Facts.decode_encode |].
  intros F' E.
  pose proof (Base64Facts.decode_encode bs F) as D.
  rewrite E, (Base64Facts.decode_encode bs' F') in D. now inversion D.
Qed.

Lemma base64_text_gives_the_bytes_back_witness :
  Base64Decode.decode (Base64.encode (u16 "{}")) = Some (u16 "{}").
Proof.
  apply (base64_text_gives_the_bytes_back (u16 "{}") []).
  repeat constructor.
Defined.

(** X18: the [audio] text of a file of [n] bytes is
    [4 * ceil(n / 3)] units long. *)
Theorem base64_text_length (bs : list N) :
  List.length (Base64.encode bs) = (4 * ((List.length bs + 2) / 3))%nat.
Proof.
  apply Base64Facts.encode_length.
Qed.

(** ** Fences without the [json] tag *)

Module PlainFence.
Import Replace.

(** After a line feed the lexer is between tokens, if it goes on at
    all. *)
Lemma lstep_lf_idle (st st' : lstate) (ts : list token) :
  keyword_ok st = true ->
  lstep st LF = Some (st', ts) -> st' = LIdle.
Proof.
  intros K H.
  destruct st; cbn in H; try discriminate H;
    try (inversion H; reflexivity).
  destruct rest as [| x rest]; [discriminate H |].
  cbn [keyword_ok existsb] in K.
  change (match x with 0 => false | N.pos q => (10 =? q)%positive end)
    with (LF =? x) in H.
  destruct (LF =? x); [discriminate K | discriminate H].
Qed.

(** No JSON text ends with a line feed and a backtick. *)
Lemma parse_before_backtick (s r : jsstr) :
  parse (s ++ LF :: 96 :: r) = None.
Proof.
  unfold parse. rewrite JsonFacts.lex_eq, JsonFacts.lrun_app.
  destruct (lrun LIdle [] s) as [[st out] |] eqn:E; [| reflexivity].
  apply JsonFacts.lrun_keyword_ok in E; [| reflexivity].
  cbn [lrun].
  destruct (lstep st LF) as [[st' ts] |] eqn:S; [| reflexivity].
  rewrite (lstep_lf_idle st st' ts E S). reflexivity.
Qed.

Lemma after_fence_before_lf (s r : jsstr) :
  after fence s = None -> after fence (s ++ LF :: r) = None.
Proof.
  rewrite !ReplaceFacts.after_fence.
  destruct s as [| a [| b [| c s]]]; cbn [app]; intro H;
    try exact H.
  - destruct r as [| x [| y r]]; reflexivity.
  - destruct r as [| x r]; [reflexivity |].
    destruct (96 =? a); reflexivity.
  - destruct (96 =? a), (96 =? b); reflexivity.
  - destruct ((96 =? a) && (96 =? b) && (96 =? c));
      [discriminate H | reflexivity].
Qed.

Lemma fence_json_absent_before_closing (s : jsstr) :
  occurs fence s = false ->
  occurs fence_json (s ++ LF :: fence) = false.
Proof.
  induction s as [| c s IH]; intro H; [reflexivity |].
  rewrite ReplaceFacts.occurs_eq.
  assert (A : after fence_json ((c :: s) ++ LF :: fence) = None).
  { change fence_json with (fence ++ u16 "json").
    rewrite ReplaceFacts.after_app_pattern.
    now rewrite (after_fence_before_lf _ _ (ReplaceFacts.occurs_head _ _ _ H)). }
  rewrite A. cbn [app]. apply IH.
  exact (ReplaceFacts.occurs_tail _ _ _ H).
Qed.

Lemma strip_plainly_fenced (s : jsstr) :
  occurs fence s = false ->
  strip_fences (plainly_fenced s) = s ++ LF :: fence.
Proof.
  intro H. unfold strip_fences, plainly_fenced.
  assert (R : remove_first fence_json (fence ++ [LF] ++ s ++ [LF] ++ fence)
              = fence ++ [LF] ++ s ++ [LF] ++ fence).
  { change (fence ++ [LF] ++ s ++ [LF] ++ fence)
      with (96 :: 96 :: 96 :: LF :: (s ++ LF :: fence)).
    do 4 (rewrite ReplaceFacts.remove_first_eq;
          match goal with
          | |- context [after fence_json ?t] =>
              change (after fence_json t) with (@None jsstr)
          end;
          cbv beta iota; f_equal).
    apply ReplaceFacts.remove_first_absent.
    now apply fence_json_absent_before_closing. }
  rewrite R, ReplaceFacts.remove_first_eq, ReplaceFacts.after_app.
  reflexivity.
Qed.

End PlainFence.

(** X19: only a fence opened with the [json] tag is stripped as a
    pair.  For a reply [s] without backticks inside a fence that opens
    with three backticks alone, the second replacement takes the
    opening fence, the closing fence stays in the text, and the parse
    fails whatever [s] is: the request ends in status 500. *)
Theorem plain_fence_is_not_stripped (s : jsstr) :
  Replace.occurs fence s = false ->
  strip_fences (plainly_fenced s) = s ++ Replace.LF :: fence
  /\ parse (strip_fences (plainly_fenced s)) = None.
Proof.
  intro H. rewrite (PlainFence.strip_plainly_fenced s H).
  split; [reflexivity |].
  apply PlainFence.parse_before_backtick.
Qed.

Lemma plain_fence_is_not_stripped_witness :
  strip_fences (plainly_fenced one_fragment_reply)
  = one_fragment_reply ++ Replace.LF :: fence
  /\ parse (strip_fences (plainly_fenced one_fragment_reply)) = None.
Proof.
  apply (plain_fence_is_not_stripped one_fragment_reply). reflexivity.
Defined.

Lemma failed_visemes_skip_the_rest_witness :
  iteration
    (fixed_world (inr one_fragment_reply) (inr tt) only_ffmpeg_succeeds
       disk_of_objects)
    both_keys 0 at_one_fragment
  = (Ok tt,
     Store tt
       [EvSpeech (message_file 0 ".mp3") (u16 "hi");
        EvExec (ffmpeg_command 0); EvExec (rhubarb_command 0)]
       (JArr [one_fragment])).
Proof.
  apply (failed_visemes_skip_the_rest
           (fixed_world (inr one_fragment_reply) (inr tt)
              only_ffmpeg_succeeds disk_of_objects)
           both_keys [] [] _ (u16 "hi") at_one_fragment eq_refl eq_refl
           tt tt tt (succeeds []) (fails []));
    [reflexivity | reflexivity | reflexivity | reflexivity | discriminate].
Defined.

Lemma unreadable_audio_skips_the_transcript_witness :
  iteration
    (fixed_world (inr one_fragment_reply) (inr tt) succeeds disk_without_mp3)
    both_keys 0 at_one_fragment
  = (Ok tt,
     Store tt
       [EvSpeech (message_file 0 ".mp3") (u16 "hi");
        EvExec (ffmpeg_command 0); EvExec (rhubarb_command 0);
        EvRead (message_file 0 ".mp3")]
       (JArr [one_fragment])).
Proof.
  apply (unreadable_audio_skips_the_transcript
           (fixed_world (inr one_fragment_reply) (inr tt) succeeds
              disk_without_mp3)
           both_keys [] [] _ (u16 "hi") at_one_fragment eq_refl eq_refl
           tt tt tt tt (succeeds []) (succeeds [])
           (Thrown (Some (u16 "ENOENT"))));
    reflexivity.
Defined.

(** * Turns as a whole *)

Section LoopParts.

Context {W : Type} (C : collaborators W) (cfg : config).



(** The loop over [a + b] fragments is the loop over the first [a],
    then the loop over the other [b]. *)
Lemma loop_add (a b i : nat) (s : store W) :
  loop C cfg (a + b) i s
  = match loop C cfg a i s with
    | (Ok _, s1) => loop C cfg b (i + a) s1
    | (Throw e, s1) => (Throw e, s1)
    | (Beyond g, s1) => (Beyond g, s1)
    end.
Proof.
  revert i s. induction a as [| a IH]; intros i s.
  - cbn [loop Nat.add ret]. now rewrite Nat.add_0_r.
  - cbn [loop Nat.add]. unfold bind.
    destruct (iteration C cfg i s) as [[[] | e | g] s1]; try reflexivity.
    rewrite IH. now rewrite Nat.add_succ_r.
Qed.

(** The turns for the fragments [A] leave the fragments [B] behind
    them untouched. *)
Lemma loop_prefix (A pre B : list json) (s : store W) :
  messages s = JArr (pre ++ A ++ B) ->
  ~ In JNull A ->
  exists (A' : list json) (w1 : W) (evs : list event),
    loop C cfg (List.length A) (List.length pre) s
    = (Ok tt, Store w1 (calls s ++ evs) (JArr (pre ++ A' ++ B)))
    /\ Forall2 emitted A A'.
Proof.
  revert pre s. induction A as [| m A IH]; intros pre s H NoNull.
  - exists [], (world s), []. cbn [loop List.length app] in *.
    unfold ret. rewrite <- H, <- store_eta. split; [reflexivity | constructor].
  - cbn [loop List.length]. unfold bind at 1.
    destruct (iteration_spec C cfg pre m (A ++ B) s H)
      as (r1 & m' & w1 & evs1 & E1 & Em & R1 & _).
    rewrite E1.
    destruct R1 as [-> | [_ ->]]; [| exfalso; apply NoNull; now left].
    set (s1 := Store w1 (calls s ++ evs1) (JArr (pre ++ m' :: A ++ B))).
    assert (H1 : messages s1 = JArr ((pre ++ [m']) ++ A ++ B)).
    { cbn. now rewrite <- app_assoc. }
    destruct (IH (pre ++ [m']) s1 H1) as (A' & w2 & evs2 & E2 & F2).
    { intro I. apply NoNull. now right. }
    rewrite length_app, Nat.add_1_r in E2.
    exists (m' :: A'), w2, (evs1 ++ evs2).
    rewrite E2. cbn [calls s1]. rewrite <- !app_assoc. cbn [app].
    split; [reflexivity | now constructor].
Qed.

(** The pipeline of a fragment for which every step succeeds. *)
Lemma media_pipeline_succeeds (pre post : list json)
    (members : list (jsstr * json)) (text : jsstr) (s : store W)
    (w1 w2 w3 w4 w5 : W) (p1 p2 : process) (mp3 transcript : list N)
    (lipsync : json) :
  messages s = JArr (pre ++ JObj members :: post) ->
  textToSpeech C (elevenLabsApiKey cfg) voiceID
    (message_file (List.length pre) ".mp3") text (world s) = (inr tt, w1) ->
  exec C (ffmpeg_command (List.length pre)) w1 = (p1, w2) ->
  ended p1 = Exited 0 ->
  exec C (rhubarb_command (List.length pre)) w2 = (p2, w3) ->
  ended p2 = Exited 0 ->
  readFile C (message_file (List.length pre) ".mp3") w3 = (inr mp3, w4) ->
  readFile C (message_file (List.length pre) ".json") w4
  = (inr transcript, w5) ->
  parse (utf8 C transcript) = Some lipsync ->
  exists evs : list event,
    media_pipeline C cfg (List.length pre) text s
    = (Ok tt,
       Store w5 (calls s ++ evs)
         (JArr (pre
                  ++ JObj (obj_set (u16 "lipsync") lipsync
                             (obj_set (u16 "audio")
                                (JStr (Base64.encode mp3)) members))
                  :: post))).
Proof.
  intros H T E1 Z1 E2 Z2 R1 R2 P.
  unfold media_pipeline, bind at 1, voice_textToSpeech.
  rewrite T. cbn [lift]. unfold bind at 1.
  rewrite lipSyncMessage_runs.
  unfold record at 1 2 3. cbn [world calls messages].
  rewrite E1.
  apply exec_error_none with (command := ffmpeg_command (List.length pre))
    in Z1.
  rewrite Z1, E2.
  apply exec_error_none with (command := rhubarb_command (List.length pre))
    in Z2.
  rewrite Z2.
  unfold bind at 1.
  match goal with
  | |- context [audioFileToBase64 C ?f ?s3] =>
      rewrite (audioFileToBase64_reads C f s3 mp3 w4 R1)
  end.
  unfold bind at 1, assign_field at 1, record. cbn [world calls messages].
  rewrite H, (assign_at pre members post).
  unfold bind at 1.
  match goal with
  | |- context [readJsonTranscript C ?f ?s4] =>
      rewrite (readJsonTranscript_reads C f s4 transcript w5 lipsync R2 P)
  end.
  unfold assign_field, record. cbn [world calls messages].
  rewrite (assign_at pre _ post).
  eexists. rewrite <- !app_assoc. reflexivity.
Qed.

End LoopParts.

Section ListTurn.

Context {W : Type} (C : collaborators W).
Variables (cfg : config) (req_body : json) (w w' : W) (text : jsstr).
Variables (parsed : json) (L : list json).

Hypothesis message_given :
  truthy_opt (field req_body (u16 "message")) = true.
Hypothesis keys_given : keys_missing cfg = false.
Hypothesis model_answers :
  generateContent C (genAI_key cfg)
    (or_hello (field req_body (u16 "message"))) w = (inr text, w').
Hypothesis reply_parses : parse (strip_fences text) = Some parsed.
Hypothesis reply_is_list :
  parsed = JArr L \/ field parsed (u16 "messages") = Some (JArr L).

(** A turn whose reply holds the list [L] stores [L] in [messages],
    runs the loop over it, and answers from what the loop leaves. *)
Lemma list_turn_is_the_loop :
  post_chat C cfg req_body w
  = (answer_after
       (fst (loop C cfg (List.length L) 0
               (Store w'
                  [EvGenerate (or_hello (field req_body (u16 "message")))]
                  (JArr L))))
       (messages
          (snd (loop C cfg (List.length L) 0
                  (Store w'
                     [EvGenerate (or_hello (field req_body (u16 "message")))]
                     (JArr L))))),
     snd (loop C cfg (List.length L) 0
            (Store w'
               [EvGenerate (or_hello (field req_body (u16 "message")))]
               (JArr L)))).
Proof.
  unfold post_chat, chat, try_catch.
  rewrite (normal_turn_parses C cfg req_body w w' text
             message_given keys_given model_answers) by reflexivity.
  unfold bind at 1, JSON_parse. rewrite reply_parses. cbn [ret].
  unfold process_reply, bind at 1.
  rewrite (unwrap_list parsed L _ reply_is_list).
  unfold bind at 1, set_messages, record.
  cbn [length_of world calls messages app]. unfold bind at 1.
  destruct (loop C cfg (List.length L) 0 _) as [[[] | e | g] s1];
    reflexivity.
Qed.

(** C5: whether the reply parses to the bare array [L] or to an
    object whose [messages] is [L], the turn is the same: [L] is what
    is stored as [messages], the loop runs over the fragments of [L]
    from index 0, and the answer is made of what the loop leaves: the
    fragments of [L], one for one and in order, each as given or with
    its media set. *)
Theorem bare_array_and_wrapped_list_agree :
  post_chat C cfg req_body w
  = (answer_after
       (fst (loop C cfg (List.length L) 0
               (Store w'
                  [EvGenerate (or_hello (field req_body (u16 "message")))]
                  (JArr L))))
       (messages
          (snd (loop C cfg (List.length L) 0
                  (Store w'
                     [EvGenerate (or_hello (field req_body (u16 "message")))]
                     (JArr L))))),
     snd (loop C cfg (List.length L) 0
            (Store w'
               [EvGenerate (or_hello (field req_body (u16 "message")))]
               (JArr L))))
  /\ exists L' : list json,
      messages
        (snd (loop C cfg (List.length L) 0
                (Store w'
                   [EvGenerate (or_hello (field req_body (u16 "message")))]
                   (JArr L))))
      = JArr L'
      /\ Forall2 emitted L L'.
Proof.
  split; [exact list_turn_is_the_loop |].
  destruct (loop_spec C cfg L []
              (Store w'
                 [EvGenerate (or_hello (field req_body (u16 "message")))]
                 (JArr L)) eq_refl)
    as (r & L' & w1 & evs & E & F2 & _).
  cbn [List.length] in E. rewrite E. now exists L'.
Qed.

(** The answer of a turn whose reply holds the list [L]. *)
Lemma list_turn_answers :
  (fst (post_chat C cfg req_body w)
   = Ok (Response 500
           (Failure (u16 "Failed to process message")
              (Some (EngineText TypeError))))
   /\ In JNull L)
  \/ exists (L' : list json) (s' : store W),
      post_chat C cfg req_body w
      = (Ok (Response 200 (Messages (JArr L'))), s')
      /\ Forall2 emitted L L'
      /\ (forall j m,
            nth_error L j = Some m ->
            (forall t, field m (u16 "text") <> Some (JStr t)) ->
            nth_error L' j = Some m)
      /\ (forall j m t,
            nth_error L j = Some m ->
            field m (u16 "text") = Some (JStr t) ->
            In (EvSpeech (message_file j ".mp3") t) (calls s')).
Proof.
  rewrite list_turn_is_the_loop.
  destruct (loop_spec C cfg L []
              (Store w'
                 [EvGenerate (or_hello (field req_body (u16 "message")))]
                 (JArr L)) eq_refl)
    as (r & L' & w1 & evs & E & F2 & R & S & K).
  cbn [List.length] in E, S. rewrite E. cbn [fst snd messages calls].
  destruct R as [-> | [-> I]].
  - right. exists L'. eexists. split; [reflexivity |].
    split; [exact F2 |]. split; [exact K |].
    intros j m t Nj Ft. right. exact (S eq_refl j m t Nj Ft).
  - left. now split.
Qed.

(** C10, as amended: on a model-driven turn whose reply is a list [L]
    without a [null] element, the request succeeds with status 200 and
    one fragment out for each fragment in; a fragment whose [text] is
    not a string, absent for one, comes out as the model gave it; and
    every fragment with a text is still processed: its text is sent to
    speech synthesis under the file name of its index, and when the
    steps of its pipeline succeed from the state in which its turn of
    the loop starts, it comes out with its [audio] and [lipsync]
    set. *)
Theorem textless_fragment_degrades_alone :
  ~ In JNull L ->
  exists (L' : list json) (s' : store W),
    post_chat C cfg req_body w
    = (Ok (Response 200 (Messages (JArr L'))), s')
    /\ Forall2 emitted L L'
    /\ (forall j m,
          nth_error L j = Some m ->
          (forall t, field m (u16 "text") <> Some (JStr t)) ->
          nth_error L' j = Some m)
    /\ (forall j m t,
          nth_error L j = Some m ->
          field m (u16 "text") = Some (JStr t) ->
          In (EvSpeech (message_file j ".mp3") t) (calls s'))
    /\ (forall (A B : list json) (members : list (jsstr * json))
               (t : jsstr) (w1 w2 w3 w4 w5 : W) (p1 p2 : process)
               (mp3 transcript : list N) (lipsync : json),
          L = A ++ JObj members :: B ->
          lookup (u16 "text") members = Some (JStr t) ->
          textToSpeech C (elevenLabsApiKey cfg) voiceID
            (message_file (List.length A) ".mp3") t
            (world
               (snd (loop C cfg (List.length A) 0
                       (Store w'
                          [EvGenerate
                             (or_hello (field req_body (u16 "message")))]
                          (JArr L)))))
          = (inr tt, w1) ->
          exec C (ffmpeg_command (List.length A)) w1 = (p1, w2) ->
          ended p1 = Exited 0 ->
          exec C (rhubarb_command (List.length A)) w2 = (p2, w3) ->
          ended p2 = Exited 0 ->
          readFile C (message_file (List.length A) ".mp3") w3
          = (inr mp3, w4) ->
          readFile C (message_file (List.length A) ".json") w4
          = (inr transcript, w5) ->
          parse (utf8 C transcript) = Some lipsync ->
          nth_error L' (List.length A)
          = Some (JObj (obj_set (u16 "lipsync") lipsync
                          (obj_set (u16 "audio")
                             (JStr (Base64.encode mp3)) members)))).
Proof.
  intro NoNull.
  destruct list_turn_answers as [[_ I] | (L' & s' & E & F2 & K & Sp)];
    [contradiction |].
  exists L', s'. split; [exact E |]. split; [exact F2 |].
  split; [exact K |]. split; [exact Sp |].
  intros A B members t w1 w2 w3 w4 w5 p1 p2 mp3 transcript lipsync
    HL Ht T E1 Z1 E2 Z2 R1 R2 P.
  rewrite list_turn_is_the_loop in E.
  set (s0 := Store w'
               [EvGenerate (or_hello (field req_body (u16 "message")))]
               (JArr L)) in *.
  assert (NA : ~ In JNull A).
  { intro X. apply NoNull. rewrite HL. apply in_or_app. now left. }
  assert (NB : ~ In JNull B).
  { intro X. apply NoNull. rewrite HL. apply in_or_app. right. now right. }
  assert (H0 : messages s0 = JArr ([] ++ A ++ JObj members :: B)).
  { cbn. now rewrite HL. }
  destruct (loop_prefix C cfg A [] (JObj members :: B) s0 H0 NA)
    as (A' & wa & evsa & Ea & Fa).
  cbn [List.length app] in Ea.
  rewrite Ea in T. cbn [snd world] in T.
  set (s1 := Store wa (calls s0 ++ evsa) (JArr (A' ++ JObj members :: B)))
    in *.
  assert (LA : List.length A' = List.length A).
  { symmetry. exact (Forall2_length Fa). }
  rewrite <- LA in T, E1, E2, R1, R2.
  assert (H1 : messages s1 = JArr (A' ++ JObj members :: B)) by reflexivity.
  destruct (media_pipeline_succeeds C cfg A' B members t s1
              w1 w2 w3 w4 w5 p1 p2 mp3 transcript lipsync
              H1 T E1 Z1 E2 Z2 R1 R2 P) as (evsm & Em).
  pose proof (iteration_runs_pipeline C cfg A' B members t s1 H1 Ht) as It.
  unfold try_catch in It. rewrite Em in It.
  set (m' := JObj (obj_set (u16 "lipsync") lipsync
                     (obj_set (u16 "audio") (JStr (Base64.encode mp3))
                        members))) in *.
  set (s2 := Store w5 (calls s1 ++ evsm) (JArr (A' ++ m' :: B))) in *.
  assert (H2 : messages s2 = JArr ((A' ++ [m']) ++ B)).
  { cbn. now rewrite <- app_assoc. }
  destruct (loop_spec C cfg B (A' ++ [m']) s2 H2)
    as (rb & B' & wb & evsb & Eb & Fb & Rb & _).
  rewrite length_app, Nat.add_1_r in Eb.
  assert (Len : List.length L = (List.length A' + S (List.length B))%nat).
  { rewrite HL, length_app, LA. reflexivity. }
  rewrite Len, loop_add, LA, Ea in E. cbn [Nat.add] in E.
  rewrite <- LA in E.
  cbn [loop] in E. unfold bind at 1 2 3 in E. rewrite It, Eb in E.
  cbn [fst snd messages] in E.
  destruct Rb as [-> | [_ Ib]]; [| contradiction].
  cbn [answer_after] in E. inversion E as [[HL' Hs]].
  rewrite <- app_assoc. cbn [app].
  rewrite <- LA, nth_error_app2 by apply Nat.le_refl.
  now rewrite Nat.sub_diag.
Qed.

End ListTurn.

Lemma bare_array_and_wrapped_list_agree_witness :
  fst (post_chat
         (fixed_world (inr wrapped_fragments_reply) (inr tt) succeeds
            disk_of_objects)
         both_keys (says "hello") tt)
  = Ok (Response 200
          (Messages
             (JArr [one_fragment_with_media; second_fragment_with_media])))
  /\ fst (post_chat
            (fixed_world (inr two_fragments_reply) (inr tt) succeeds
               disk_of_objects)
            both_keys (says "hello") tt)
     = Ok (Response 200
             (Messages
                (JArr [one_fragment_with_media; second_fragment_with_media]))).
Proof.
  split.
  - destruct (bare_array_and_wrapped_list_agree
                (fixed_world (inr wrapped_fragments_reply) (inr tt) succeeds
                   disk_of_objects)
                both_keys (says "hello") tt tt wrapped_fragments_reply
                (JObj [(u16 "messages",
                        JArr [one_fragment; second_fragment])])
                [one_fragment; second_fragment]
                eq_refl eq_refl eq_refl eq_refl (or_intror eq_refl))
      as [E _].
    rewrite E. vm_compute. reflexivity.
  - destruct (bare_array_and_wrapped_list_agree
                (fixed_world (inr two_fragments_reply) (inr tt) succeeds
                   disk_of_objects)
                both_keys (says "hello") tt tt two_fragments_reply
                (JArr [one_fragment; second_fragment])
                [one_fragment; second_fragment]
                eq_refl eq_refl eq_refl eq_refl (or_introl eq_refl))
      as [E _].
    rewrite E. vm_compute. reflexivity.
Defined.

Lemma textless_fragment_degrades_alone_witness :
  exists (L' : list json) (s' : store unit),
    post_chat
      (fixed_world (inr textless_then_fragment_reply) (inr tt) succeeds
         disk_of_objects)
      both_keys (says "hello") tt
    = (Ok (Response 200 (Messages (JArr L'))), s')
    /\ nth_error L' 0 = Some textless_fragment
    /\ nth_error L' 1 = Some one_fragment_with_media.
Proof.
  destruct (textless_fragment_degrades_alone
              (fixed_world (inr textless_then_fragment_reply) (inr tt)
                 succeeds disk_of_objects)
              both_keys (says "hello") tt tt textless_then_fragment_reply
              (JArr [textless_fragment; one_fragment])
              [textless_fragment; one_fragment]
              eq_refl eq_refl eq_refl eq_refl (or_introl eq_refl))
    as (L' & s' & E & _ & K & _ & P).
  { intros [X | [X | []]]; discriminate X. }
  exists L', s'. split; [exact E |]. split.
  - apply (K 0%nat textless_fragment eq_refl). intros t X. discriminate X.
  - assert (Q := P [textless_fragment] []
                   [(u16 "text", JStr (u16 "hi"));
                    (u16 "facialExpression", JStr (u16 "smile"));
                    (u16 "animation", JStr (u16 "Idle"))]
                   (u16 "hi") tt tt tt tt tt
                   (succeeds []) (succeeds []) (u16 "{}") (u16 "{}")
                   (JObj [])).
    vm_compute in Q. vm_compute.
    apply Q; reflexivity.
Defined.

(** C10, as stated, fails when a [null] stands beside the fragment
    without text: the reply [[{"facialExpression":"sad"},null]] is a
    list with such a fragment, and the request is answered with status
    500. *)
Lemma null_beside_textless_fragment_fails :
  parse (strip_fences textless_then_null_reply)
  = Some (JArr [textless_fragment; JNull])
  /\ field textless_fragment (u16 "text") = None
  /\ fst (post_chat
            (fixed_world (inr textless_then_null_reply) (inr tt) succeeds
               disk_of_objects)
            both_keys (says "hello") tt)
     = Ok (Response 500
             (Failure (u16 "Failed to process message")
                (Some (EngineText TypeError)))).
Proof.
  repeat split; vm_compute; reflexivity.
Qed.

Section FailedTurn.

Context {W : Type} (C : collaborators W).
Variables (cfg : config) (req_body : json) (w w' : W).

Hypothesis message_given :
  truthy_opt (field req_body (u16 "message")) = true.
Hypothesis keys_given : keys_missing cfg = false.



End FailedTurn.




